(** * FilterController (src/controllers/filtercontroller.cpp)

    A shallow embedding of Shotcut's [FilterController]: the metadata loader,
    the selection state machine around [setCurrentFilter], and the relay of
    engine events to the current [QmlFilter] adapter.

    Conventions of the embedding.
    - C++ [int] values are [Z]; no arithmetic of the controller can leave the
      range of [int] ([rowCount() - 1] is at least [-1]).
    - [QString]s are [string]s of Latin-1 characters, so [toLatin1()] is the
      identity.
    - Pointers are addresses ([nat]) into explicit object stores; a null
      pointer is [None].
    - Signals, calls into components whose code lives in other files, and the
      allocation and deletion of adapters are appended to [trace], in program
      order.  A signal connected to a slot of the controller in this file runs
      that slot right after it is recorded (Qt's direct connection).
    - [LOG_DEBUG] and [LOG_WARNING] lines are not modelled.
    - [setProducer], [timerEvent] (which calls [loadFilterMetadata] and
      stops the timer) and the two accessors are left out: their effect lies
      in the models and the toolkit; what [setProducer] and the attached
      model do to the rows appears as a step of the surroundings. *)

From Stdlib Require Import ZArith Ascii String.
From stdpp Require Import base option list strings gmap.

Local Open Scope Z_scope.

(** ** Qt helpers used by the controller *)

Module Qt.

(** [qMin], [qMax] and [qBound] of QtGlobal, for [int]:
    [qBound(min, val, max) = qMax(min, qMin(max, val))]. *)
Definition qMin (a b : Z) : Z := if a <? b then a else b.
Definition qMax (a b : Z) : Z := if a <? b then b else a.
Definition qBound (min val max : Z) : Z := qMax min (qMin max val).

(** [QString::startsWith]. *)
Definition startsWith (s p : string) : bool := String.prefix p s.

(** [QString::remove(0, n)]: drop the first [n] characters. *)
Fixpoint remove0 (n : nat) (s : string) : string :=
  match n, s with
  | S n', String _ rest => remove0 n' rest
  | _, _ => s
  end.

(** [QString::arg(a)] for a format whose lowest place marker is [%1]:
    every occurrence of [%1] is replaced by [a]. *)
Fixpoint arg (fmt a : string) : string :=
  match fmt with
  | EmptyString => EmptyString
  | String c rest =>
      match rest with
      | String d rest' =>
          if Ascii.eqb c "%"%char && Ascii.eqb d "1"%char
          then a +:+ arg rest' a
          else String c (arg rest a)
      | EmptyString => String c EmptyString
      end
  end.

(** [QObject::tr]: translation catalogues are loaded at run time and are
    not part of the controller; the embedding shows the source text. *)
Definition tr (s : string) : string := s.

End Qt.

(** ** The media engine, as far as the controller looks at it *)

Module Mlt.

(** An [Mlt::Service] wrapper; [get_service] is the engine's handle of the
    wrapped service, which is what the relay compares. *)
Record Service := mkService { get_service : nat }.

#[global] Instance Service_eq_dec : EqDecision Service.
Proof. solve_decision. Defined.

(** [Mlt::Properties] with string values. *)
Abbreviation Properties := (gmap string string).

(** [Mlt::Repository]: the registries of filters, links and producers
    ([get_data(name)] is non-null exactly for a registered name) and the
    metadata of filter services ([metadata(mlt_service_filter_type, name)];
    a name without an entry stands for a null or invalid result). *)
Record Repository := mkRepository {
  filters : gset string;
  links : gset string;
  producers : gset string;
  metadata : gmap string Properties
}.

Definition get_data (registry : gset string) (name : string) : bool :=
  bool_decide (name ∈ registry).

End Mlt.

(** ** QmlMetadata, QmlFilter and the attached-filters model *)

Module QmlMetadata.

Inductive PluginType := Filter | Producer | Transition | Link | FilterSet.

#[global] Instance PluginType_eq_dec : EqDecision PluginType.
Proof. solve_decision. Defined.

(** [QmlKeyframesMetadata]; [checkVersion] is recorded by the version it
    was called with. *)
Record Keyframes := mkKeyframes { checkedVersion : option string }.

(** One [QmlMetadata] object.  [isMltVersion] is the object's own answer
    to [isMltVersion(version)] (qmlmetadata.cpp decides it from the
    descriptor's minimum version); [settingsLoaded] records
    [loadSettings()]. *)
Record t := mk {
  objectName : string;
  mlt_service : string;
  type : PluginType;
  name : string;
  isDeprecated : bool;
  isMltVersion : string → bool;
  keyframes : option Keyframes;
  path : option string;
  version : option string;
  hasParent : bool;
  settingsLoaded : bool
}.

Definition loadSettings (m : t) : t :=
  mk (objectName m) (mlt_service m) (type m) (name m) (isDeprecated m)
     (isMltVersion m) (keyframes m) (path m) (version m) (hasParent m) true.

Definition setPath (subdir : string) (m : t) : t :=
  mk (objectName m) (mlt_service m) (type m) (name m) (isDeprecated m)
     (isMltVersion m) (keyframes m) (Some subdir) (version m) (hasParent m)
     (settingsLoaded m).

(** [setParent(0)]. *)
Definition setParent0 (m : t) : t :=
  mk (objectName m) (mlt_service m) (type m) (name m) (isDeprecated m)
     (isMltVersion m) (keyframes m) (path m) (version m) false
     (settingsLoaded m).

(** [setProperty("version", v)]. *)
Definition setVersion (v : string) (m : t) : t :=
  mk (objectName m) (mlt_service m) (type m) (name m) (isDeprecated m)
     (isMltVersion m) (keyframes m) (path m) (Some v) (hasParent m)
     (settingsLoaded m).

(** [keyframes()->checkVersion(v)]. *)
Definition checkVersion (v : string) (m : t) : t :=
  mk (objectName m) (mlt_service m) (type m) (name m) (isDeprecated m)
     (isMltVersion m) ((λ _, mkKeyframes (Some v)) <$> keyframes m) (path m)
     (version m) (hasParent m) (settingsLoaded m).

Definition setName (n : string) (m : t) : t :=
  mk (objectName m) (mlt_service m) (type m) n (isDeprecated m)
     (isMltVersion m) (keyframes m) (path m) (version m) (hasParent m)
     (settingsLoaded m).

End QmlMetadata.

(** Addresses of [QmlMetadata] and [QmlFilter] objects. *)
Abbreviation MetaPtr := nat (only parsing).
Abbreviation FilterPtr := nat (only parsing).

Module QmlFilter.

(** Modelled from the spec: the enumerators [QmlFilter::NoCurrentFilter] and
    [QmlFilter::DeselectCurrentFilter] are declared in qmltypes/qmlfilter.h,
    which is not among the sources; the spec calls them the sentinel values
    of the selection index meaning "no selection" and "force-refresh".  They
    are the two negative values below. *)
Definition NoCurrentFilter : Z := -1.
Definition DeselectCurrentFilter : Z := -2.

(** The adapter built by [new QmlFilter(service, metadata)]. *)
Record t := mk {
  service : Mlt.Service;
  metadata : MetaPtr;
  isNew : bool
}.

Definition setIsNew (b : bool) (f : t) : t := mk (service f) (metadata f) b.

(** The signals of an adapter that the controller emits. *)
Inductive Signal :=
| changed
| changedName (name : string)
| animateInChanged
| animateOutChanged
| inChanged (delta : Z)
| outChanged (delta : Z).

End QmlFilter.

Module AttachedFiltersModel.

(** Modelled from the spec: [AttachedFiltersModel] (attachedfiltersmodel.cpp)
    is not among the sources.  Following the spec's data model, an attached
    entry references the metadata it was created from and the live engine
    service; either may be missing (the controller tests both for null).
    [getMetadata] and [getService] answer null for a row outside the list. *)
Record Entry := mkEntry {
  entry_metadata : option MetaPtr;
  entry_service : option Mlt.Service
}.

Abbreviation t := (list Entry).

Definition rowCount (m : t) : Z := Z.of_nat (length m).

Definition row (m : t) (i : Z) : option Entry :=
  if 0 <=? i then m !! Z.to_nat i else None.

Definition getMetadata (m : t) (i : Z) : option MetaPtr :=
  row m i ≫= entry_metadata.

Definition getService (m : t) (i : Z) : option Mlt.Service :=
  row m i ≫= entry_service.

End AttachedFiltersModel.

(** ** The controller *)

(** The member functions of [FilterController]. *)
Inductive Method :=
| Constructor
| LoadFilterMetadata
| SetCurrentFilter
| OnFadeInChanged
| OnFadeOutChanged
| OnServiceInChanged
| OnServiceOutChanged
| HandleAttachedModelChange
| HandleAttachedModelAboutToReset
| HandleAttachedRowsRemoved
| HandleAttachedRowsInserted
| HandleAttachDuplicateFailed
| OnQmlFilterChanged
| RemoveCurrent
| OnProducerChanged
| AddMetadata.

#[global] Instance Method_eq_dec : EqDecision Method.
Proof. solve_decision. Defined.

#[global] Instance Signal_eq_dec : EqDecision QmlFilter.Signal.
Proof. solve_decision. Defined.

(** What the controller does to the world around it. *)
Inductive Event :=
| currentFilterChanged (filter : option FilterPtr) (meta : option MetaPtr)
    (index : Z)                      (* emit currentFilterChanged(...) *)
| statusChanged (message : string)   (* emit statusChanged(...) *)
| filterChanged (service : option Mlt.Service)
                                     (* emit filterChanged(m_mltService) *)
| filterSignal (filter : FilterPtr) (signal : QmlFilter.Signal)
                                     (* emit m_currentFilter->signal(...) *)
| dataChanged (row : Z)              (* emit m_attachedModel.dataChanged *)
| trackTitleChanged                  (* emit m_attachedModel.trackTitleChanged *)
| refreshConsumer                    (* MLT.refreshConsumer() *)
| attachedRemove (row : Z)           (* m_attachedModel.remove(row) *)
| newQmlFilter (filter : FilterPtr)  (* new QmlFilter(...) *)
| deleteQmlFilter (filter : FilterPtr). (* delete, by QScopedPointer *)

#[global] Instance Event_eq_dec : EqDecision Event.
Proof. solve_decision. Defined.

(** The controller's members, followed by the part of the world its
    functions read and write: the [QmlMetadata] objects created so far (an
    address is a position in [metaObjects]), the live [QmlFilter] objects,
    the next free adapter address, the integer properties of the engine's
    services, the trace, and a ghost log of the assignments to
    [m_currentFilterIndex], each with the member function whose body holds
    the assignment. *)
Record FilterController := mkFilterController {
  m_mltService : option Mlt.Service;
  m_metadataModel : list MetaPtr;
  m_attachedModel : AttachedFiltersModel.t;
  m_currentFilterIndex : Z;
  m_currentFilter : option FilterPtr;
  metaObjects : list QmlMetadata.t;
  filterObjects : gmap nat QmlFilter.t;
  nextFilter : nat;
  serviceProps : gmap nat (gmap string Z);
  trace : list Event;
  indexWrites : list (Method * Z)
}.

Definition set_mltService (v : option Mlt.Service) (c : FilterController) :=
  mkFilterController v (m_metadataModel c) (m_attachedModel c)
    (m_currentFilterIndex c) (m_currentFilter c) (metaObjects c)
    (filterObjects c) (nextFilter c) (serviceProps c) (trace c)
    (indexWrites c).

Definition set_metadataModel (v : list MetaPtr) (c : FilterController) :=
  mkFilterController (m_mltService c) v (m_attachedModel c)
    (m_currentFilterIndex c) (m_currentFilter c) (metaObjects c)
    (filterObjects c) (nextFilter c) (serviceProps c) (trace c)
    (indexWrites c).

Definition set_attachedModel (v : AttachedFiltersModel.t)
    (c : FilterController) :=
  mkFilterController (m_mltService c) (m_metadataModel c) v
    (m_currentFilterIndex c) (m_currentFilter c) (metaObjects c)
    (filterObjects c) (nextFilter c) (serviceProps c) (trace c)
    (indexWrites c).

(** [m_currentFilterIndex = v;] in the body of [who]. *)
Definition assign_currentFilterIndex (who : Method) (v : Z)
    (c : FilterController) :=
  mkFilterController (m_mltService c) (m_metadataModel c) (m_attachedModel c)
    v (m_currentFilter c) (metaObjects c)
    (filterObjects c) (nextFilter c) (serviceProps c) (trace c)
    (indexWrites c ++ [(who, v)]).

Definition set_currentFilter (v : option FilterPtr) (c : FilterController) :=
  mkFilterController (m_mltService c) (m_metadataModel c) (m_attachedModel c)
    (m_currentFilterIndex c) v (metaObjects c)
    (filterObjects c) (nextFilter c) (serviceProps c) (trace c)
    (indexWrites c).

Definition set_metaObjects (v : list QmlMetadata.t) (c : FilterController) :=
  mkFilterController (m_mltService c) (m_metadataModel c) (m_attachedModel c)
    (m_currentFilterIndex c) (m_currentFilter c) v
    (filterObjects c) (nextFilter c) (serviceProps c) (trace c)
    (indexWrites c).

Definition set_filterObjects (v : gmap nat QmlFilter.t) (next : nat)
    (c : FilterController) :=
  mkFilterController (m_mltService c) (m_metadataModel c) (m_attachedModel c)
    (m_currentFilterIndex c) (m_currentFilter c) (metaObjects c)
    v next (serviceProps c) (trace c) (indexWrites c).

Definition set_serviceProps (v : gmap nat (gmap string Z))
    (c : FilterController) :=
  mkFilterController (m_mltService c) (m_metadataModel c) (m_attachedModel c)
    (m_currentFilterIndex c) (m_currentFilter c) (metaObjects c)
    (filterObjects c) (nextFilter c) v (trace c) (indexWrites c).

(** Append one event to the trace. *)
Definition emit (e : Event) (c : FilterController) :=
  mkFilterController (m_mltService c) (m_metadataModel c) (m_attachedModel c)
    (m_currentFilterIndex c) (m_currentFilter c) (metaObjects c)
    (filterObjects c) (nextFilter c) (serviceProps c) (trace c ++ [e])
    (indexWrites c).

(** [FilterController::FilterController]: no service, empty models, no
    selection, no adapter; the engine's service properties are given. *)
Definition init (props : gmap nat (gmap string Z)) : FilterController :=
  mkFilterController None [] [] QmlFilter.NoCurrentFilter None [] ∅ 0%nat
    props [] [].

(** *** Engine properties: [get_int] and [clear] of [Mlt::Properties] *)

Definition get_int (svc : Mlt.Service) (name : string)
    (c : FilterController) : Z :=
  default 0 (serviceProps c !! Mlt.get_service svc ≫= (.!! name)).

Definition clear (svc : Mlt.Service) (name : string)
    (c : FilterController) : FilterController :=
  set_serviceProps
    (alter (delete name) (Mlt.get_service svc) (serviceProps c)) c.

(** *** The adapter store: [new], and [QScopedPointer::reset] *)

(** [new QmlFilter(service, meta)]: a fresh address holding the adapter. *)
Definition new_QmlFilter (svc : Mlt.Service) (meta : MetaPtr)
    (c : FilterController) : FilterPtr * FilterController :=
  let p := nextFilter c in
  (p, emit (newQmlFilter p)
        (set_filterObjects
           (<[p := QmlFilter.mk svc meta false]> (filterObjects c)) (S p) c)).

(** [filter->setIsNew(isNew)]. *)
Definition setIsNew (p : FilterPtr) (b : bool) (c : FilterController) :=
  set_filterObjects (alter (QmlFilter.setIsNew b) p (filterObjects c))
    (nextFilter c) c.

(** [m_currentFilter.reset(other)]: nothing when [other] is already held;
    otherwise [other] is stored and the adapter held before is deleted. *)
Definition reset (other : option FilterPtr) (c : FilterController) :=
  if decide (m_currentFilter c = other) then c
  else
    let c' := set_currentFilter other c in
    match m_currentFilter c with
    | Some old =>
        emit (deleteQmlFilter old)
          (set_filterObjects (delete old (filterObjects c')) (nextFilter c') c')
    | None => c'
    end.

(** *** Metadata loader *)

(** The version the engine's metadata carries for a filter service, as
    [loadFilterMetadata] reads it: empty without valid metadata or without
    a ["version"] entry, and without a leading ["lavfi"]. *)
Definition mltVersion (repo : Mlt.Repository) (service : string) : string :=
  match Mlt.metadata repo !! service ≫= (.!! "version") with
  | Some v => if Qt.startsWith v "lavfi" then Qt.remove0 5 v else v
  | None => ""
  end.

(** Apply a setter to the [QmlMetadata] object at address [meta]. *)
Definition updateMeta (meta : MetaPtr) (f : QmlMetadata.t → QmlMetadata.t)
    (c : FilterController) : FilterController :=
  set_metaObjects (alter f meta (metaObjects c)) c.

(** [FilterController::addMetadata]: [m_metadataModel.add(meta)].  The row
    the model gives the descriptor is decided in metadatamodel.cpp; the
    embedding keeps the addresses in the order they were added. *)
Definition addMetadata (meta : MetaPtr) (c : FilterController) :=
  set_metadataModel (m_metadataModel c ++ [meta]) c.

(** The four statements shared by the two accepting branches:
    [loadSettings(); setPath(subdir); setParent(0); addMetadata(meta)]. *)
Definition adopt (subdir : string) (meta : MetaPtr) (c : FilterController) :=
  addMetadata meta
    (updateMeta meta QmlMetadata.setParent0
       (updateMeta meta (QmlMetadata.setPath subdir)
          (updateMeta meta QmlMetadata.loadSettings c))).

(** The condition of the first branch (source lines 81-84). *)
Definition filterAvailable (repo : Mlt.Repository) (obj : QmlMetadata.t)
    (version : string) : bool :=
  Mlt.get_data (Mlt.filters repo) (QmlMetadata.mlt_service obj)
  && (negb (String.eqb "maskGlaxnimate" (QmlMetadata.objectName obj))
      || Mlt.get_data (Mlt.producers repo) "glaxnimate")
  && (String.eqb version "" || QmlMetadata.isMltVersion obj version).

(** The condition of the second branch (source lines 96-97). *)
Definition linkAvailable (repo : Mlt.Repository) (obj : QmlMetadata.t)
    : bool :=
  bool_decide (QmlMetadata.type obj = QmlMetadata.Link)
  && Mlt.get_data (Mlt.links repo) (QmlMetadata.mlt_service obj).

(** The body of the inner loop for one file of [subdir]: [created] is what
    [qobject_cast<QmlMetadata *>(component.create())] gave, null when the
    file did not yield a descriptor. *)
Definition loadFile (repo : Mlt.Repository) (subdir : string)
    (created : option QmlMetadata.t) (c : FilterController)
    : FilterController :=
  match created with
  | None => c
  | Some obj =>
      let meta := length (metaObjects c) in
      let c := set_metaObjects (metaObjects c ++ [obj]) c in
      let version := mltVersion repo (QmlMetadata.mlt_service obj) in
      let c :=
        if filterAvailable repo obj version then
          let c := adopt subdir meta c in
          if negb (String.eqb version "")
             && bool_decide (is_Some (QmlMetadata.keyframes obj))
          then updateMeta meta (QmlMetadata.checkVersion version)
                 (updateMeta meta (QmlMetadata.setVersion version) c)
          else c
        else if linkAvailable repo obj then adopt subdir meta c
        else c in
      if QmlMetadata.isDeprecated obj
      then updateMeta meta
             (λ m, QmlMetadata.setName
                     (QmlMetadata.name m +:+ " " +:+ Qt.tr "(DEPRECATED)") m)
             c
      else c
  end.

(** What the two [entryList] calls return: the sub-directories of the
    filters directory, and for each the files matching [meta*.qml] with the
    result of instantiating them. *)
Abbreviation Scan := (list (string * list (string * option QmlMetadata.t))).

Definition loadDir (repo : Mlt.Repository)
    (c : FilterController) (d : string * list (string * option QmlMetadata.t))
    : FilterController :=
  foldl (λ c f, loadFile repo (fst d) (snd f) c) c (snd d).

(** [FilterController::loadFilterMetadata]. *)
Definition loadFilterMetadata (repo : Mlt.Repository) (scan : Scan)
    (c : FilterController) : FilterController :=
  foldl (loadDir repo) c scan.

(** *** Selection *)

(** [FilterController::onQmlFilterChanged()]. *)
Definition onQmlFilterChanged (c : FilterController) : FilterController :=
  emit (filterChanged (m_mltService c)) c.

(** [FilterController::onQmlFilterChanged(const QString &name)]. *)
Definition onQmlFilterChangedName (name : string) (c : FilterController)
    : FilterController :=
  if String.eqb name "disable"
  then emit (dataChanged (m_currentFilterIndex c)) c
  else c.

(** [emit filter->signal(...)]: the signal is recorded, and the two
    [changed] signals run the slots [setCurrentFilter] connected to them. *)
Definition emit_filter (filter : FilterPtr) (signal : QmlFilter.Signal)
    (c : FilterController) : FilterController :=
  let c := emit (filterSignal filter signal) c in
  match signal with
  | QmlFilter.changed => onQmlFilterChanged c
  | QmlFilter.changedName name => onQmlFilterChangedName name c
  | _ => c
  end.

(** [FilterController::setCurrentFilter]. *)
Definition setCurrentFilter (attachedIndex : Z) (isNew : bool)
    (c : FilterController) : FilterController :=
  if decide (attachedIndex = m_currentFilterIndex c) then c
  else
    let c := assign_currentFilterIndex SetCurrentFilter attachedIndex c in
    let c :=
      match m_mltService c with
      | Some svc =>
          if decide (get_int svc "_hide" c ≠ 0)
          then emit refreshConsumer (clear svc "_hide" c)
          else c
      | None => c
      end in
    let meta :=
      AttachedFiltersModel.getMetadata (m_attachedModel c)
        (m_currentFilterIndex c) in
    match meta with
    | Some m =>
        let c :=
          emit (currentFilterChanged None None QmlFilter.NoCurrentFilter) c in
        let c :=
          set_mltService
            (AttachedFiltersModel.getService (m_attachedModel c)
               (m_currentFilterIndex c)) c in
        match m_mltService c with
        | None => c
        | Some svc =>
            let '(filter, c) := new_QmlFilter svc m c in
            let c := setIsNew filter isNew c in
            let c :=
              emit (currentFilterChanged (Some filter) meta
                      (m_currentFilterIndex c)) c in
            reset (Some filter) c
        end
    | None =>
        let c :=
          emit (currentFilterChanged None None (m_currentFilterIndex c)) c in
        reset None c
    end.

(** *** Event relay *)

(** [FilterController::onFadeInChanged]. *)
Definition onFadeInChanged (c : FilterController) : FilterController :=
  match m_currentFilter c with
  | Some f =>
      emit_filter f QmlFilter.animateInChanged
        (emit_filter f QmlFilter.changed c)
  | None => c
  end.

(** [FilterController::onFadeOutChanged]. *)
Definition onFadeOutChanged (c : FilterController) : FilterController :=
  match m_currentFilter c with
  | Some f =>
      emit_filter f QmlFilter.animateOutChanged
        (emit_filter f QmlFilter.changed c)
  | None => c
  end.

(** [m_currentFilter->service().get_service() == service->get_service()],
    for a live adapter at [f]. *)
Definition sameService (f : FilterPtr) (service : Mlt.Service)
    (c : FilterController) : bool :=
  match filterObjects c !! f with
  | Some a =>
      bool_decide (Mlt.get_service (QmlFilter.service a)
                   = Mlt.get_service service)
  | None => false
  end.

(** The guard shared by [onServiceInChanged] and [onServiceOutChanged]:
    [delta && m_currentFilter && (!service || same engine service)]; it
    yields the adapter to notify. *)
Definition relayTarget (delta : Z) (service : option Mlt.Service)
    (c : FilterController) : option FilterPtr :=
  if decide (delta = 0) then None
  else
    match m_currentFilter c with
    | None => None
    | Some f =>
        match service with
        | None => Some f
        | Some s => if sameService f s c then Some f else None
        end
    end.

(** [FilterController::onServiceInChanged]. *)
Definition onServiceInChanged (delta : Z) (service : option Mlt.Service)
    (c : FilterController) : FilterController :=
  match relayTarget delta service c with
  | Some f => emit_filter f (QmlFilter.inChanged delta) c
  | None => c
  end.

(** [FilterController::onServiceOutChanged]. *)
Definition onServiceOutChanged (delta : Z) (service : option Mlt.Service)
    (c : FilterController) : FilterController :=
  match relayTarget delta service c with
  | Some f => emit_filter f (QmlFilter.outChanged delta) c
  | None => c
  end.

(** *** Slots for the attached-filters model *)

(** [FilterController::handleAttachedModelChange]. *)
Definition handleAttachedModelChange (c : FilterController)
    : FilterController :=
  match m_currentFilter c with
  | Some f => emit_filter f (QmlFilter.changedName "disable") c
  | None => c
  end.

(** [FilterController::handleAttachedModelAboutToReset]. *)
Definition handleAttachedModelAboutToReset (c : FilterController)
    : FilterController :=
  setCurrentFilter QmlFilter.NoCurrentFilter false c.

(** [FilterController::handleAttachedRowsRemoved]. *)
Definition handleAttachedRowsRemoved (first : Z) (c : FilterController)
    : FilterController :=
  let c :=
    assign_currentFilterIndex HandleAttachedRowsRemoved
      QmlFilter.DeselectCurrentFilter c in
  setCurrentFilter
    (Qt.qBound 0 first (AttachedFiltersModel.rowCount (m_attachedModel c) - 1))
    false c.

(** [FilterController::handleAttachedRowsInserted]. *)
Definition handleAttachedRowsInserted (first : Z) (c : FilterController)
    : FilterController :=
  let c :=
    assign_currentFilterIndex HandleAttachedRowsInserted
      QmlFilter.DeselectCurrentFilter c in
  setCurrentFilter
    (Qt.qBound 0 first (AttachedFiltersModel.rowCount (m_attachedModel c) - 1))
    true c.

(** [FilterController::handleAttachDuplicateFailed].  [meta->name()]
    dereferences the metadata of row [index]: without one (or with an
    address that holds no object) the call has no defined result, [None]. *)
Definition handleAttachDuplicateFailed (index : Z) (c : FilterController)
    : option FilterController :=
  meta ← AttachedFiltersModel.getMetadata (m_attachedModel c) index;
  obj ← metaObjects c !! meta;
  let c :=
    emit (statusChanged
            (Qt.arg (Qt.tr "Only one %1 filter is allowed.")
               (QmlMetadata.name obj))) c in
  Some (setCurrentFilter index false c).

(** [FilterController::removeCurrent].  The removal itself is the attached
    model's; the controller's part is the request. *)
Definition removeCurrent (c : FilterController) : FilterController :=
  if decide (m_currentFilterIndex c > QmlFilter.NoCurrentFilter)
  then emit (attachedRemove (m_currentFilterIndex c)) c
  else c.

(** [FilterController::onProducerChanged]. *)
Definition onProducerChanged (c : FilterController) : FilterController :=
  emit trackTitleChanged c.

(** ** Runs of the controller *)

(** One step of a run: a call of a member function (a slot invoked by the
    event loop, by the user interface or by a connected signal), or a change
    made by the surroundings: the attached model replacing its rows (filters
    attached, removed or moved, the producer changed), or the engine setting
    an integer property of a service. *)
Inductive Op :=
| Call_loadFilterMetadata (repo : Mlt.Repository) (scan : Scan)
| Call_addMetadata (meta : MetaPtr)
| Call_setCurrentFilter (attachedIndex : Z) (isNew : bool)
| Call_onFadeInChanged
| Call_onFadeOutChanged
| Call_onServiceInChanged (delta : Z) (service : option Mlt.Service)
| Call_onServiceOutChanged (delta : Z) (service : option Mlt.Service)
| Call_handleAttachedModelChange
| Call_handleAttachedModelAboutToReset
| Call_handleAttachedRowsRemoved (first : Z)
| Call_handleAttachedRowsInserted (first : Z)
| Call_handleAttachDuplicateFailed (index : Z)
| Call_onQmlFilterChanged
| Call_onQmlFilterChangedName (name : string)
| Call_removeCurrent
| Call_onProducerChanged
| Env_attachedModel (rows : AttachedFiltersModel.t)
| Env_serviceProperty (svc : Mlt.Service) (name : string) (value : Z).

Definition run_op (op : Op) (c : FilterController) : option FilterController :=
  match op with
  | Call_loadFilterMetadata repo scan => Some (loadFilterMetadata repo scan c)
  | Call_addMetadata meta => Some (addMetadata meta c)
  | Call_setCurrentFilter i isNew => Some (setCurrentFilter i isNew c)
  | Call_onFadeInChanged => Some (onFadeInChanged c)
  | Call_onFadeOutChanged => Some (onFadeOutChanged c)
  | Call_onServiceInChanged d s => Some (onServiceInChanged d s c)
  | Call_onServiceOutChanged d s => Some (onServiceOutChanged d s c)
  | Call_handleAttachedModelChange => Some (handleAttachedModelChange c)
  | Call_handleAttachedModelAboutToReset =>
      Some (handleAttachedModelAboutToReset c)
  | Call_handleAttachedRowsRemoved first =>
      Some (handleAttachedRowsRemoved first c)
  | Call_handleAttachedRowsInserted first =>
      Some (handleAttachedRowsInserted first c)
  | Call_handleAttachDuplicateFailed i => handleAttachDuplicateFailed i c
  | Call_onQmlFilterChanged => Some (onQmlFilterChanged c)
  | Call_onQmlFilterChangedName n => Some (onQmlFilterChangedName n c)
  | Call_removeCurrent => Some (removeCurrent c)
  | Call_onProducerChanged => Some (onProducerChanged c)
  | Env_attachedModel rows => Some (set_attachedModel rows c)
  | Env_serviceProperty svc name value =>
      Some (set_serviceProps
              (partial_alter (λ o, Some (<[name := value]> (default ∅ o)))
                 (Mlt.get_service svc) (serviceProps c)) c)
  end.

(** A run from a state: the steps in order; [None] once a step has no
    defined result. *)
Fixpoint run_ops (ops : list Op) (c : FilterController)
    : option FilterController :=
  match ops with
  | [] => Some c
  | op :: ops' => run_op op c ≫= run_ops ops'
  end.

(** ** Notions used to state the properties *)

(** The events added to the trace between two states of a run. *)
Definition since (c c' : FilterController) : list Event :=
  drop (length (trace c)) (trace c').

(** The descriptors a scan yields, in the order the loops visit them. *)
Definition descriptors (scan : Scan) : list QmlMetadata.t :=
  d ← scan; omap snd (snd d).

(** Acceptance as the loader's description words it: the filter registry
    has the service and the version requirement holds, or the descriptor is
    a link and the link registry has the service. *)
Definition accepted_as_described (repo : Mlt.Repository)
    (obj : QmlMetadata.t) : bool :=
  let version := mltVersion repo (QmlMetadata.mlt_service obj) in
  Mlt.get_data (Mlt.filters repo) (QmlMetadata.mlt_service obj)
  && (String.eqb version "" || QmlMetadata.isMltVersion obj version)
  || bool_decide (QmlMetadata.type obj = QmlMetadata.Link)
     && Mlt.get_data (Mlt.links repo) (QmlMetadata.mlt_service obj).

(** The call of [MLT.refreshConsumer()] that [setCurrentFilter] makes when
    the service bound so far carries a non-zero [_hide]. *)
Definition unhide_events (c : FilterController) : list Event :=
  match m_mltService c with
  | Some svc => if decide (get_int svc "_hide" c ≠ 0) then [refreshConsumer] else []
  | None => []
  end.

(** The deletion of the adapter held so far, if there is one. *)
Definition delete_events (c : FilterController) : list Event :=
  match m_currentFilter c with
  | Some old => [deleteQmlFilter old]
  | None => []
  end.

(** The adapter held by [m_currentFilter] was allocated before the next
    free address. *)
Definition adapter_allocated (c : FilterController) : Prop :=
  ∀ old, m_currentFilter c = Some old → (old < nextFilter c)%nat.

(** The live adapters are exactly the one [m_currentFilter] holds, and all
    lie below the next free address. *)
Definition adapter_inv (c : FilterController) : Prop :=
  dom (filterObjects c) = from_option singleton ∅ (m_currentFilter c)
  ∧ adapter_allocated c.

(** An assignment to [m_currentFilterIndex] as the code makes them: inside
    [setCurrentFilter], or the force-refresh sentinel written by one of the
    two row handlers. *)
Definition index_writer_ok (w : Method * Z) : Prop :=
  w.1 = SetCurrentFilter
  ∨ (w.1 = HandleAttachedRowsRemoved ∨ w.1 = HandleAttachedRowsInserted)
    ∧ w.2 = QmlFilter.DeselectCurrentFilter.

(** The loader's own acceptance test: the first branch or the second. *)
Definition accepts (repo : Mlt.Repository) (obj : QmlMetadata.t) : bool :=
  filterAvailable repo obj (mltVersion repo (QmlMetadata.mlt_service obj))
  || linkAvailable repo obj.

(** The addresses a load adds to the metadata model when the descriptors
    [objs] are created from address [base] on. *)
Fixpoint added (repo : Mlt.Repository) (base : nat)
    (objs : list QmlMetadata.t) : list MetaPtr :=
  match objs with
  | [] => []
  | obj :: objs' =>
      (if accepts repo obj then [base] else []) ++ added repo (S base) objs'
  end.

(** The part of a state that the adapter invariant and the ghost log speak
    of. *)
Definition adapter_part (c : FilterController) :=
  (filterObjects c, nextFilter c, m_currentFilter c, indexWrites c).

(** The invariant of every run. *)
Definition run_inv (c : FilterController) : Prop :=
  adapter_inv c ∧ Forall index_writer_ok (indexWrites c).

(** ** Example states *)

(** Two attached filters, each with metadata and a service. *)
Definition two_rows : AttachedFiltersModel.t :=
  [ AttachedFiltersModel.mkEntry (Some 0%nat) (Some (Mlt.mkService 10));
    AttachedFiltersModel.mkEntry (Some 1%nat) (Some (Mlt.mkService 11)) ].

Definition blur : QmlMetadata.t :=
  QmlMetadata.mk "blur" "boxblur" QmlMetadata.Filter "Blur" false
    (λ _, true) None None None true false.

Definition crop : QmlMetadata.t :=
  QmlMetadata.mk "crop" "crop" QmlMetadata.Filter "Crop" false
    (λ _, true) None None None true false.

(** A controller with two descriptors and two attached filters, nothing
    selected. *)
Definition two_attached : FilterController :=
  set_metaObjects [blur; crop] (set_attachedModel two_rows (init ∅)).

(** The same after the first attached filter was selected. *)
Definition first_selected : FilterController :=
  setCurrentFilter 0 false two_attached.

(** The first attached filter selected, and a second row that has metadata
    but no service. *)
Definition second_without_service : FilterController :=
  set_attachedModel
    [ AttachedFiltersModel.mkEntry (Some 0%nat) (Some (Mlt.mkService 10));
      AttachedFiltersModel.mkEntry (Some 1%nat) None ]
    first_selected.

(** A mask descriptor that needs the glaxnimate producer, and an engine
    that has the mask's filter service but not that producer. *)
Definition maskGlaxnimate : QmlMetadata.t :=
  QmlMetadata.mk "maskGlaxnimate" "mask_start" QmlMetadata.Filter
    "Mask: Draw" false (λ _, true) None None None true false.

Definition engine_without_glaxnimate : Mlt.Repository :=
  Mlt.mkRepository {["mask_start"]} ∅ ∅ ∅.

Definition mask_scan : Scan :=
  [("mask_glaxnimate", [("meta.qml", Some maskGlaxnimate)])].

(** ** Looking up the metadata of a service *)

(** The loop of [metadataForService] over the rows of the metadata model:
    the first row whose descriptor has the wanted unique id.  [uniqueId] is
    [QmlMetadata::uniqueId] (qmlmetadata.cpp), taken as given.  A row whose
    address holds no object has no defined [uniqueId()]: the result is then
    [None]; otherwise it is [Some] of the pointer returned, null included. *)
Fixpoint metadataForService_rows (uniqueId : QmlMetadata.t → string)
    (id : string) (objects : list QmlMetadata.t) (rows : list MetaPtr)
    : option (option MetaPtr) :=
  match rows with
  | [] => Some None
  | tmpMeta :: rows' =>
      obj ← objects !! tmpMeta;
      if String.eqb (uniqueId obj) id then Some (Some tmpMeta)
      else metadataForService_rows uniqueId id objects rows'
  end.

(** The unique id [metadataForService] looks for: the service's property
    named by [kShotcutFilterProperty] (a constant of
    shotcut_mlt_properties.h, taken as given), and its [mlt_service] when
    that property is empty.  [get] is [service->get(name)] read as a
    [QString] (empty for a property that is not set). *)
Definition serviceUniqueId (kShotcutFilterProperty : string)
    (get : string → string) : string :=
  let uniqueId := get kShotcutFilterProperty in
  if String.eqb uniqueId "" then get "mlt_service" else uniqueId.

(** [FilterController::metadataForService]. *)
Definition metadataForService (kShotcutFilterProperty : string)
    (uniqueId : QmlMetadata.t → string) (get : string → string)
    (c : FilterController) : option (option MetaPtr) :=
  metadataForService_rows uniqueId
    (serviceUniqueId kShotcutFilterProperty get)
    (metaObjects c) (m_metadataModel c).

(** ** Further notions *)

(** The descriptors a scan yields, each with the directory it was found
    in. *)
Definition located (scan : Scan) : list (string * QmlMetadata.t) :=
  d ← scan; (λ obj, (fst d, obj)) <$> omap snd (snd d).

(** The object a descriptor has become when the loop body is done with its
    file. *)
Definition loadedObject (repo : Mlt.Repository) (subdir : string)
    (obj : QmlMetadata.t) : QmlMetadata.t :=
  default obj
    (metaObjects (loadFile repo subdir (Some obj) (init ∅)) !! 0%nat).

(** The metadata model holds each address once, and only addresses of
    objects that exist. *)
Definition metadata_wf (c : FilterController) : Prop :=
  NoDup (m_metadataModel c)
  ∧ Forall (λ q, (q < length (metaObjects c))%nat) (m_metadataModel c).

(** The addresses of the adapters a trace has built, and of those it has
    deleted, in order. *)
Definition created (tr : list Event) : list FilterPtr :=
  omap (λ e, match e with newQmlFilter p => Some p | _ => None end) tr.

Definition deleted (tr : list Event) : list FilterPtr :=
  omap (λ e, match e with deleteQmlFilter p => Some p | _ => None end) tr.

(** The members behind the selection, and the adapter store. *)
Definition selection_part (c : FilterController) :=
  (m_currentFilterIndex c, m_currentFilter c, m_mltService c,
   filterObjects c, nextFilter c).

(** Every adapter a run has built has the address of its rank, and the
    deleted ones are, each once, those built but no longer held. *)
Definition allocation_inv (c : FilterController) : Prop :=
  adapter_inv c
  ∧ created (trace c) = seq 0 (nextFilter c)
  ∧ NoDup (deleted (trace c))
  ∧ ∀ p, p ∈ deleted (trace c)
         ↔ (p < nextFilter c)%nat ∧ m_currentFilter c ≠ Some p.

(** The adapter held is live, and bound to [m_mltService] whenever that is
    set. *)
Definition held_bound (c : FilterController) : Prop :=
  ∀ a, m_currentFilter c = Some a →
       ∃ f, filterObjects c !! a = Some f
            ∧ ∀ s, m_mltService c = Some s → QmlFilter.service f = s.

(** The held adapter is bound, and nothing is held while the index is
    negative. *)
Definition binding_inv (c : FilterController) : Prop :=
  held_bound c
  ∧ (m_currentFilterIndex c < 0 → m_currentFilter c = None).

(** The invariant of the runs, for allocation and binding together. *)
Definition reach_inv (c : FilterController) : Prop :=
  allocation_inv c ∧ binding_inv c.

(** The slots that only pass a signal on. *)
Definition is_relay (op : Op) : bool :=
  match op with
  | Call_onFadeInChanged | Call_onFadeOutChanged
  | Call_onServiceInChanged _ _ | Call_onServiceOutChanged _ _
  | Call_handleAttachedModelChange
  | Call_onQmlFilterChanged | Call_onQmlFilterChangedName _
  | Call_onProducerChanged => true
  | _ => false
  end.

(** What a relay slot may add to the trace: signals, never the building or
    deletion of an adapter, a request to remove a row, or a notification of
    a changed selection. *)
Definition relay_event (e : Event) : Prop :=
  match e with
  | filterSignal _ _ | filterChanged _ | dataChanged _ | trackTitleChanged =>
      True
  | _ => False
  end.

(** The second state is the first with signals added to the trace. *)
Definition only_signals (c c' : FilterController) : Prop :=
  ∃ new,
    c' = mkFilterController (m_mltService c) (m_metadataModel c)
           (m_attachedModel c) (m_currentFilterIndex c) (m_currentFilter c)
           (metaObjects c) (filterObjects c) (nextFilter c) (serviceProps c)
           (trace c ++ new) (indexWrites c)
    ∧ Forall relay_event new.

(** ** Further example states *)

(** An engine with two filter services, one of which carries a version, and
    one link service. *)
Definition engine_with_versions : Mlt.Repository :=
  Mlt.mkRepository {["boxblur"; "avfilter.hue"]} {["timeremap"]} ∅
    {["avfilter.hue" := {["version" := "lavfi7.110"]}]}.

(** Descriptors: a deprecated hue filter with keyframes, a time-remap link,
    and a filter whose service the engine does not have. *)
Definition hue : QmlMetadata.t :=
  QmlMetadata.mk "hue" "avfilter.hue" QmlMetadata.Filter "Hue" true
    (λ _, true) (Some (QmlMetadata.mkKeyframes None)) None None true false.

Definition timeRemap : QmlMetadata.t :=
  QmlMetadata.mk "timeRemap" "timeremap" QmlMetadata.Link "Time Remap" false
    (λ _, true) None None None true false.

Definition missing : QmlMetadata.t :=
  QmlMetadata.mk "" "frei0r.missing" QmlMetadata.Filter "Missing" false
    (λ _, true) None None None true false.

Definition three_dirs : Scan :=
  [("hue", [("meta.qml", Some hue)]);
   ("time", [("meta_broken.qml", None); ("meta_remap.qml", Some timeRemap)]);
   ("missing", [("meta.qml", Some missing)])].

(** [QmlMetadata::uniqueId] as Shotcut has it: the object name, or the
    service when the object name is empty. *)
Definition objectName_or_service (m : QmlMetadata.t) : string :=
  if String.eqb (QmlMetadata.objectName m) ""
  then QmlMetadata.mlt_service m
  else QmlMetadata.objectName m.

(** The properties of a service that has no [shotcut:filter], only its
    [mlt_service]. *)
Definition legacy_timeremap (name : string) : string :=
  if String.eqb name "mlt_service" then "timeRemap" else "".

(** The first attached filter selected, and its service hidden by its
    user interface. *)
Definition first_selected_hidden : FilterController :=
  set_serviceProps {[10%nat := {["_hide" := 1]}]} first_selected.

(** * Properties *)

#[global] Arguments AttachedFiltersModel.getMetadata : simpl never.
#[global] Arguments AttachedFiltersModel.getService : simpl never.
#[global] Arguments AttachedFiltersModel.rowCount : simpl never.

(** Case analysis on every test a member function makes. *)
Ltac split_tests :=
  repeat first
    [ progress simpl in *
    | case_decide
    | match goal with
      | |- context [match ?x with _ => _ end] => destruct x eqn:?
      end ].

(** ** What [setCurrentFilter] leaves alone, and what it always does *)

Lemma setCurrentFilter_index i isNew c :
  m_currentFilterIndex (setCurrentFilter i isNew c) = i.
Proof. unfold setCurrentFilter, reset. split_tests; auto. Qed.

Lemma setCurrentFilter_attachedModel i isNew c :
  m_attachedModel (setCurrentFilter i isNew c) = m_attachedModel c.
Proof. unfold setCurrentFilter, reset. split_tests; auto. Qed.

(** The trace only grows, and [setCurrentFilter] never asks the attached
    model to remove a row. *)
Lemma setCurrentFilter_trace i isNew c :
  ∃ new, trace (setCurrentFilter i isNew c) = trace c ++ new
         ∧ Forall (λ e, ∀ r, e ≠ attachedRemove r) new.
Proof.
  unfold setCurrentFilter, reset, new_QmlFilter.
  split_tests;
    (eexists; split;
     [ rewrite <- ?app_assoc; simpl;
       first [reflexivity | symmetry; apply app_nil_r]
     | repeat constructor; done ]).
Qed.

(** With metadata and a service at the requested row, the controller ends
    up holding a fresh adapter bound to them. *)
Lemma setCurrentFilter_binds c idx isNew meta svc :
  idx ≠ m_currentFilterIndex c →
  AttachedFiltersModel.getMetadata (m_attachedModel c) idx = Some meta →
  AttachedFiltersModel.getService (m_attachedModel c) idx = Some svc →
  m_currentFilter (setCurrentFilter idx isNew c) = Some (nextFilter c)
  ∧ filterObjects (setCurrentFilter idx isNew c) !! nextFilter c
    = Some (QmlFilter.mk svc meta isNew).
Proof.
  intros Hne Hmeta Hsvc.
  unfold setCurrentFilter, get_int.
  rewrite decide_False by done. simpl.
  destruct (m_mltService c) as [bound|]; simpl;
    [ destruct (decide (_ ≠ 0)); simpl | ];
    rewrite Hmeta; simpl; rewrite Hsvc; simpl;
    unfold reset; simpl;
    (case_decide as Hheld; simpl;
     [ | destruct (m_currentFilter c) as [old|] eqn:Hold; simpl ]);
    (split; [done|]);
    rewrite ?lookup_delete_ne by congruence;
    by rewrite lookup_alter_eq, lookup_insert_eq.
Qed.

Lemma qBound_range lo v hi :
  lo ≤ Qt.qBound lo v hi ≤ Z.max lo hi.
Proof. unfold Qt.qBound, Qt.qMax, Qt.qMin. repeat case_match; lia. Qed.

(** ** The metadata loader *)

Section Loader.
Context (repo : Mlt.Repository).

Lemma added_app base objs1 objs2 :
  added repo base (objs1 ++ objs2)
  = added repo base objs1 ++ added repo (base + length objs1)%nat objs2.
Proof.
  revert base. induction objs1 as [|obj objs1 IH]; intros base; simpl.
  - by rewrite Nat.add_0_r.
  - rewrite IH, <- app_assoc. do 3 f_equal. lia.
Qed.

Lemma elem_of_added p base objs :
  p ∈ added repo base objs
  ↔ ∃ k obj, objs !! k = Some obj ∧ p = (base + k)%nat
             ∧ accepts repo obj = true.
Proof.
  revert base. induction objs as [|obj objs IH]; intros base; simpl.
  - split; [by intros ?%elem_of_nil | by intros (k & o & ? & _)].
  - rewrite elem_of_app, IH. split.
    + intros [Hhead | (k & o & Hk & -> & Hacc)].
      * destruct (accepts repo obj) eqn:Hacc.
        -- apply list_elem_of_singleton in Hhead as ->.
           exists 0%nat, obj. by rewrite Nat.add_0_r.
        -- by apply elem_of_nil in Hhead.
      * exists (S k), o. split_and!; [done | lia | done].
    + intros ([|k] & o & Hk & -> & Hacc); simpl in Hk.
      * left. injection Hk as ->. rewrite Hacc, Nat.add_0_r.
        by apply list_elem_of_singleton.
      * right. exists k, o. split_and!; [done | lia | done].
Qed.

(** One file: the descriptor gets the next address, and the model gains
    that address exactly when the loader's test accepts the descriptor. *)
Lemma loadFile_model subdir created c :
  m_metadataModel (loadFile repo subdir created c)
  = m_metadataModel c
      ++ added repo (length (metaObjects c)) (option_list created)
  ∧ length (metaObjects (loadFile repo subdir created c))
    = (length (metaObjects c) + length (option_list created))%nat.
Proof.
  destruct created as [obj|]; simpl.
  - unfold accepts.
    destruct (filterAvailable _ _ _), (linkAvailable _ _),
      (QmlMetadata.isDeprecated obj); simpl;
      repeat case_match; simpl;
      rewrite ?length_alter, ?length_app, ?app_nil_r; simpl; done.
  - by rewrite app_nil_r, Nat.add_0_r.
Qed.

Lemma loadDir_model d c :
  m_metadataModel (loadDir repo c d)
  = m_metadataModel c
      ++ added repo (length (metaObjects c)) (omap snd (snd d))
  ∧ length (metaObjects (loadDir repo c d))
    = (length (metaObjects c) + length (omap snd (snd d)))%nat.
Proof.
  unfold loadDir. destruct d as [subdir files]; simpl.
  revert c. induction files as [|[file created] files IH]; intros c; simpl.
  - by rewrite app_nil_r, Nat.add_0_r.
  - destruct (IH (loadFile repo subdir created c)) as [-> ->].
    destruct (loadFile_model subdir created c) as [-> ->].
    destruct created as [obj|]; simpl;
      rewrite <- ?app_assoc, ?app_nil_r, ?Nat.add_0_r; simpl.
    + rewrite Nat.add_1_r. split; [reflexivity|].
      simpl. rewrite Nat.add_succ_r. reflexivity.
    + done.
Qed.

Lemma loadFilterMetadata_model scan c :
  m_metadataModel (loadFilterMetadata repo scan c)
  = m_metadataModel c
      ++ added repo (length (metaObjects c)) (descriptors scan)
  ∧ length (metaObjects (loadFilterMetadata repo scan c))
    = (length (metaObjects c) + length (descriptors scan))%nat.
Proof.
  unfold loadFilterMetadata, descriptors.
  revert c. induction scan as [|d scan IH]; intros c; simpl.
  - by rewrite app_nil_r, Nat.add_0_r.
  - destruct (IH (loadDir repo c d)) as [-> ->].
    destruct (loadDir_model d c) as [-> ->].
    rewrite added_app, length_app, <- app_assoc.
    split; [reflexivity | symmetry; apply Nat.add_assoc].
Qed.

End Loader.

(** C1, as amended.  Let the metadata model hold only addresses of objects
    that exist, and let [obj] be the [k]-th descriptor a scan yields.  After
    [loadFilterMetadata] the descriptor's address is in the metadata model
    if and only if
    - the filter registry has its [mlt_service], and it is not the
      [maskGlaxnimate] descriptor or the producer registry has [glaxnimate],
      and the engine metadata carries no version or [isMltVersion] accepts
      the version it carries; or
    - it is of link type and the link registry has its [mlt_service]. *)
Theorem loadFilterMetadata_accepts repo scan c k obj :
  Forall (λ q, (q < length (metaObjects c))%nat) (m_metadataModel c) →
  descriptors scan !! k = Some obj →
  let version := mltVersion repo (QmlMetadata.mlt_service obj) in
  (length (metaObjects c) + k)%nat
    ∈ m_metadataModel (loadFilterMetadata repo scan c)
  ↔ (QmlMetadata.mlt_service obj ∈ Mlt.filters repo
     ∧ (QmlMetadata.objectName obj ≠ "maskGlaxnimate"
        ∨ "glaxnimate" ∈ Mlt.producers repo)
     ∧ (version = "" ∨ QmlMetadata.isMltVersion obj version = true))
    ∨ (QmlMetadata.type obj = QmlMetadata.Link
       ∧ QmlMetadata.mlt_service obj ∈ Mlt.links repo).
Proof.
  intros Hold Hk version.
  destruct (loadFilterMetadata_model repo scan c) as [-> _].
  rewrite elem_of_app, elem_of_added.
  assert (accepts repo obj = true ↔
    (QmlMetadata.mlt_service obj ∈ Mlt.filters repo
     ∧ (QmlMetadata.objectName obj ≠ "maskGlaxnimate"
        ∨ "glaxnimate" ∈ Mlt.producers repo)
     ∧ (version = "" ∨ QmlMetadata.isMltVersion obj version = true))
    ∨ (QmlMetadata.type obj = QmlMetadata.Link
       ∧ QmlMetadata.mlt_service obj ∈ Mlt.links repo)) as <-.
  { unfold accepts, filterAvailable, linkAvailable, Mlt.get_data.
    fold version.
    rewrite orb_true_iff, !andb_true_iff, !orb_true_iff, negb_true_iff.
    rewrite !bool_decide_eq_true, String.eqb_neq, String.eqb_eq.
    intuition congruence. }
  split.
  - intros [Hin | (k' & obj' & Hk' & Heq & Hacc)].
    + rewrite Forall_forall in Hold. apply Hold in Hin. lia.
    + assert (k' = k) as -> by lia. congruence.
  - intros Hacc. right. by exists k, obj.
Qed.

(** The amended C1 at the [maskGlaxnimate] descriptor, loaded into a fresh
    controller on an engine without the glaxnimate producer. *)
Lemma loadFilterMetadata_accepts_witness :
  (0 + 0)%nat
    ∈ m_metadataModel
        (loadFilterMetadata engine_without_glaxnimate mask_scan (init ∅))
  ↔ ("mask_start" ∈ Mlt.filters engine_without_glaxnimate
     ∧ ("maskGlaxnimate" ≠ "maskGlaxnimate"
        ∨ "glaxnimate" ∈ Mlt.producers engine_without_glaxnimate)
     ∧ ("" = "" ∨ true = true))
    ∨ (QmlMetadata.Filter = QmlMetadata.Link
       ∧ "mask_start" ∈ Mlt.links engine_without_glaxnimate).
Proof.
  apply (loadFilterMetadata_accepts engine_without_glaxnimate mask_scan
           (init ∅) 0 maskGlaxnimate).
  - simpl. apply Forall_nil_2.
  - reflexivity.
Defined.

(** C1 as stated fails: the [maskGlaxnimate] descriptor has its service in
    the filter registry and no version to satisfy, yet it is not added when
    the engine lacks the glaxnimate producer. *)
Lemma maskGlaxnimate_needs_producer :
  ¬ ∀ repo scan c k obj,
      Forall (λ q, (q < length (metaObjects c))%nat) (m_metadataModel c) →
      descriptors scan !! k = Some obj →
      ((length (metaObjects c) + k)%nat
         ∈ m_metadataModel (loadFilterMetadata repo scan c)
       ↔ accepted_as_described repo obj = true).
Proof.
  intros Hclaim.
  destruct (Hclaim engine_without_glaxnimate mask_scan (init ∅) 0%nat
              maskGlaxnimate) as [_ Hadded].
  - simpl. apply Forall_nil_2.
  - reflexivity.
  - assert (m_metadataModel
              (loadFilterMetadata engine_without_glaxnimate mask_scan (init ∅))
            = []) as Hmodel by (vm_compute; reflexivity).
    rewrite Hmodel in Hadded.
    eapply elem_of_nil, Hadded. vm_compute. reflexivity.
Qed.

(** ** Selection *)

(** C2, as amended.  After the slot for removed rows, and after the slot
    for inserted rows, the attached model is the same and the current filter
    index is [qBound(0, first, rowCount - 1)]; that value lies between [0]
    and the larger of [0] and [rowCount - 1]: a row of the list when there
    is one, and [0] when the list is empty. *)
Theorem rows_changed_index_bounded first c :
  let removed := handleAttachedRowsRemoved first c in
  let inserted := handleAttachedRowsInserted first c in
  let last := AttachedFiltersModel.rowCount (m_attachedModel c) - 1 in
  m_attachedModel removed = m_attachedModel c
  ∧ m_attachedModel inserted = m_attachedModel c
  ∧ m_currentFilterIndex removed = Qt.qBound 0 first last
  ∧ m_currentFilterIndex inserted = Qt.qBound 0 first last
  ∧ 0 ≤ Qt.qBound 0 first last ≤ Z.max 0 last.
Proof.
  unfold handleAttachedRowsRemoved, handleAttachedRowsInserted.
  rewrite !setCurrentFilter_index, !setCurrentFilter_attachedModel.
  repeat split; try done; apply qBound_range.
Qed.

(** C2 as stated fails on the empty list: when the last attached filter
    was removed, the index becomes [0], and no row [0] exists. *)
Lemma empty_list_index_not_a_row :
  ¬ ∀ first c,
      0 ≤ m_currentFilterIndex (handleAttachedRowsRemoved first c)
        ≤ AttachedFiltersModel.rowCount
            (m_attachedModel (handleAttachedRowsRemoved first c)) - 1.
Proof.
  intros Hclaim.
  destruct (Hclaim 0 (init ∅)) as [_ Hupper].
  vm_compute in Hupper. by apply Hupper.
Qed.

(** C3, as amended.  Let the requested index differ from the current one,
    let the attached entry have metadata and a service, and let the adapter
    held so far lie below the next free address.  Then [setCurrentFilter]
    - refreshes the consumer if the service bound so far was hidden,
    - notifies with the null state (no filter, no metadata,
      [NoCurrentFilter]),
    - builds a new adapter,
    - notifies with the new adapter, the entry's metadata and the new index,
    - and only then deletes the adapter held before;
    afterwards the new adapter, bound to the entry's service and metadata
    and carrying [isNew], is the only change to the live adapters, and the
    controller holds it, the new index and the entry's service. *)
Theorem setCurrentFilter_rebuilds c idx isNew meta svc :
  idx ≠ m_currentFilterIndex c →
  AttachedFiltersModel.getMetadata (m_attachedModel c) idx = Some meta →
  AttachedFiltersModel.getService (m_attachedModel c) idx = Some svc →
  adapter_allocated c →
  let c' := setCurrentFilter idx isNew c in
  let a := nextFilter c in
  trace c' =
    trace c ++ unhide_events c
      ++ [currentFilterChanged None None QmlFilter.NoCurrentFilter;
          newQmlFilter a;
          currentFilterChanged (Some a) (Some meta) idx]
      ++ delete_events c
  ∧ filterObjects c' = <[a := QmlFilter.mk svc meta isNew]>
                         (from_option (λ old, delete old (filterObjects c))
                            (filterObjects c) (m_currentFilter c))
  ∧ m_currentFilter c' = Some a
  ∧ m_currentFilterIndex c' = idx
  ∧ m_mltService c' = Some svc.
Proof.
  intros Hne Hmeta Hsvc Halloc. simpl.
  assert (m_currentFilter c ≠ Some (nextFilter c)) as Hfresh.
  { intros Hold. apply Halloc in Hold. lia. }
  unfold setCurrentFilter, unhide_events, delete_events, get_int.
  rewrite decide_False by done. simpl.
  destruct (m_mltService c) as [bound|] eqn:Hbound; simpl;
    [ destruct (decide (_ ≠ 0)) as [Hhide|Hhide]; simpl | ];
    rewrite Hmeta; simpl; rewrite Hsvc; simpl;
    unfold reset; simpl; rewrite decide_False by done;
    destruct (m_currentFilter c) as [old|] eqn:Hold; simpl;
    rewrite <- ?app_assoc; simpl;
    (split; [done|]); (split; [|done]).
  all: rewrite alter_insert_eq; simpl; try done.
  all: rewrite delete_insert_ne by congruence; done.
Qed.

(** The amended C3 at the second of two attached filters while the first is
    selected. *)
Lemma setCurrentFilter_rebuilds_witness :
  trace (setCurrentFilter 1 true first_selected)
  = trace first_selected
      ++ [currentFilterChanged None None QmlFilter.NoCurrentFilter;
          newQmlFilter 1;
          currentFilterChanged (Some 1%nat) (Some 1%nat) 1;
          deleteQmlFilter 0]
  ∧ filterObjects (setCurrentFilter 1 true first_selected)
    = <[1%nat := QmlFilter.mk (Mlt.mkService 11) 1 true]>
        (delete 0%nat (filterObjects first_selected))
  ∧ m_currentFilter (setCurrentFilter 1 true first_selected) = Some 1%nat
  ∧ m_currentFilterIndex (setCurrentFilter 1 true first_selected) = 1
  ∧ m_mltService (setCurrentFilter 1 true first_selected)
    = Some (Mlt.mkService 11).
Proof.
  apply (setCurrentFilter_rebuilds first_selected 1 true 1%nat
           (Mlt.mkService 11)).
  - vm_compute. discriminate.
  - reflexivity.
  - reflexivity.
  - intros old Hold. vm_compute in Hold. injection Hold as <-.
    vm_compute. lia.
Defined.

(** C3 as stated fails on the order: with a previous adapter, its deletion
    does not come between the two notifications; it comes last. *)
Lemma previous_adapter_deleted_last :
  ¬ ∀ c idx isNew meta old,
      idx ≠ m_currentFilterIndex c →
      AttachedFiltersModel.getMetadata (m_attachedModel c) idx = Some meta →
      m_currentFilter c = Some old →
      adapter_allocated c →
      ∃ a,
        sublist
          [currentFilterChanged None None QmlFilter.NoCurrentFilter;
           deleteQmlFilter old;
           newQmlFilter a;
           currentFilterChanged (Some a) (Some meta) idx]
          (since c (setCurrentFilter idx isNew c)).
Proof.
  intros Hclaim.
  destruct (Hclaim first_selected 1 false 1%nat 0%nat) as [a Hsub].
  - vm_compute. discriminate.
  - reflexivity.
  - reflexivity.
  - intros old Hold. vm_compute in Hold. injection Hold as <-.
    vm_compute. lia.
  - assert (since first_selected (setCurrentFilter 1 false first_selected)
            = [currentFilterChanged None None QmlFilter.NoCurrentFilter;
               newQmlFilter 1;
               currentFilterChanged (Some 1%nat) (Some 1%nat) 1;
               deleteQmlFilter 0]) as Hnew by (vm_compute; reflexivity).
    rewrite Hnew in Hsub. clear Hnew Hclaim.
    repeat match goal with
           | H : sublist _ _ |- _ => inversion H; clear H; simplify_eq
           end.
Qed.

(** A row with metadata but without a service: after the null
    notification [setCurrentFilter] returns; there is no second
    notification, and the adapter held before stays. *)
Example setCurrentFilter_without_service :
  since second_without_service
    (setCurrentFilter 1 false second_without_service)
  = [currentFilterChanged None None QmlFilter.NoCurrentFilter]
  ∧ m_currentFilter (setCurrentFilter 1 false second_without_service)
    = m_currentFilter second_without_service
  ∧ m_currentFilterIndex (setCurrentFilter 1 false second_without_service) = 1
  ∧ m_mltService (setCurrentFilter 1 false second_without_service) = None.
Proof. by vm_compute. Qed.

(** C4.  Asking for the index that is already current changes nothing: the
    whole state, and with it the index, the adapter, the bound service and
    the trace, is the one before the call. *)
Theorem setCurrentFilter_same_index isNew c :
  setCurrentFilter (m_currentFilterIndex c) isNew c = c.
Proof. unfold setCurrentFilter. by case_decide. Qed.

(** ** Event relay *)

(** C5.  An in-point or out-point change that comes from a service other
    than the one the current adapter is bound to is not forwarded: the state
    after [onServiceInChanged] and after [onServiceOutChanged] is the state
    before, trace included. *)
Theorem other_service_not_forwarded delta s c :
  (∀ f a, m_currentFilter c = Some f → filterObjects c !! f = Some a →
          Mlt.get_service (QmlFilter.service a) ≠ Mlt.get_service s) →
  onServiceInChanged delta (Some s) c = c
  ∧ onServiceOutChanged delta (Some s) c = c.
Proof.
  intros Hother.
  assert (relayTarget delta (Some s) c = None) as Hnone.
  { unfold relayTarget, sameService.
    case_decide; [done|].
    destruct (m_currentFilter c) as [f|] eqn:Hf; [|done].
    destruct (filterObjects c !! f) as [a|] eqn:Ha; [|done].
    by rewrite bool_decide_eq_false_2 by eauto. }
  unfold onServiceInChanged, onServiceOutChanged. by rewrite Hnone.
Qed.

(** C5 at the first of two attached filters being selected and a change of
    five frames coming from the service of the second. *)
Lemma other_service_not_forwarded_witness :
  onServiceInChanged 5 (Some (Mlt.mkService 11)) first_selected
  = first_selected
  ∧ onServiceOutChanged 5 (Some (Mlt.mkService 11)) first_selected
    = first_selected.
Proof.
  apply (other_service_not_forwarded 5 (Mlt.mkService 11) first_selected).
  intros f a Hf Ha.
  vm_compute in Hf. injection Hf as <-.
  vm_compute in Ha. injection Ha as <-.
  simpl. discriminate.
Defined.

(** C9.  A change with delta zero is never forwarded, whatever service it
    comes from and whatever the controller holds. *)
Theorem zero_delta_not_forwarded service c :
  onServiceInChanged 0 service c = c ∧ onServiceOutChanged 0 service c = c.
Proof. by unfold onServiceInChanged, onServiceOutChanged, relayTarget. Qed.

(** ** Slots for the attached-filters model *)

(** C7.  A duplicate-attach report for a row that has metadata ends
    normally; its first effect is the status message that names the filter;
    nothing that follows asks the attached model to remove a row; and the
    attached model is the one before the call. *)
Theorem duplicate_attach_reported c i meta obj :
  AttachedFiltersModel.getMetadata (m_attachedModel c) i = Some meta →
  metaObjects c !! meta = Some obj →
  ∃ c' rest,
    handleAttachDuplicateFailed i c = Some c'
    ∧ trace c'
      = trace c
          ++ statusChanged
               ("Only one " +:+ QmlMetadata.name obj +:+ " filter is allowed.")
             :: rest
    ∧ Forall (λ e, ∀ r, e ≠ attachedRemove r) rest
    ∧ m_attachedModel c' = m_attachedModel c.
Proof.
  intros Hmeta Hobj.
  unfold handleAttachDuplicateFailed.
  rewrite Hmeta. simpl. rewrite Hobj. simpl.
  match goal with
  | |- context [setCurrentFilter i false ?c1] =>
      destruct (setCurrentFilter_trace i false c1) as (rest & Htrace & Hrest);
      exists (setCurrentFilter i false c1), rest
  end.
  split_and!; [done | | done | by rewrite setCurrentFilter_attachedModel].
  rewrite Htrace. simpl. by rewrite <- app_assoc.
Qed.

(** C7 at a second attempt to attach the blur filter, which is row [0]. *)
Lemma duplicate_attach_reported_witness :
  ∃ c' rest,
    handleAttachDuplicateFailed 0 two_attached = Some c'
    ∧ trace c'
      = trace two_attached
          ++ statusChanged "Only one Blur filter is allowed." :: rest
    ∧ Forall (λ e, ∀ r, e ≠ attachedRemove r) rest
    ∧ m_attachedModel c' = m_attachedModel two_attached.
Proof.
  apply (duplicate_attach_reported two_attached 0 0%nat blur).
  - reflexivity.
  - reflexivity.
Defined.

(** C8.  Without a current selection (the index is at or below
    [NoCurrentFilter]) [removeCurrent] does nothing: no removal is asked
    for and the state is the one before. *)
Theorem removeCurrent_without_selection c :
  m_currentFilterIndex c ≤ QmlFilter.NoCurrentFilter →
  removeCurrent c = c.
Proof. intros Hle. unfold removeCurrent. case_decide; [lia | done]. Qed.

(** C8 at a controller with two attached filters and none selected. *)
Lemma removeCurrent_without_selection_witness :
  removeCurrent two_attached = two_attached.
Proof.
  apply (removeCurrent_without_selection two_attached).
  vm_compute. discriminate.
Defined.

(** C10.  A duplicate-attach report for a row [i] that has metadata and is
    not the current one makes [i] the current filter index; when the row
    also has a service, the controller then holds a fresh adapter bound to
    that service and metadata. *)
Theorem duplicate_attach_selects c i meta obj :
  AttachedFiltersModel.getMetadata (m_attachedModel c) i = Some meta →
  metaObjects c !! meta = Some obj →
  i ≠ m_currentFilterIndex c →
  ∃ c',
    handleAttachDuplicateFailed i c = Some c'
    ∧ m_currentFilterIndex c' = i
    ∧ ∀ svc,
        AttachedFiltersModel.getService (m_attachedModel c) i = Some svc →
        m_currentFilter c' = Some (nextFilter c)
        ∧ filterObjects c' !! nextFilter c
          = Some (QmlFilter.mk svc meta false).
Proof.
  intros Hmeta Hobj Hne.
  unfold handleAttachDuplicateFailed.
  rewrite Hmeta. simpl. rewrite Hobj. simpl.
  eexists. split; [done|]. split; [apply setCurrentFilter_index|].
  intros svc Hsvc.
  match goal with
  | |- context [setCurrentFilter i false ?c1] =>
      apply (setCurrentFilter_binds c1 i false meta svc)
  end; done.
Qed.

(** C10 at a duplicate of the crop filter (row [1]) while the blur filter
    (row [0]) is selected. *)
Lemma duplicate_attach_selects_witness :
  ∃ c',
    handleAttachDuplicateFailed 1 first_selected = Some c'
    ∧ m_currentFilterIndex c' = 1
    ∧ ∀ svc,
        AttachedFiltersModel.getService (m_attachedModel first_selected) 1
        = Some svc →
        m_currentFilter c' = Some (nextFilter first_selected)
        ∧ filterObjects c' !! nextFilter first_selected
          = Some (QmlFilter.mk svc 1%nat false).
Proof.
  apply (duplicate_attach_selects first_selected 1 1%nat crop).
  - reflexivity.
  - reflexivity.
  - vm_compute. discriminate.
Defined.

(** ** Runs: one live adapter, and who writes the index *)

Lemma run_inv_adapter_part c c' :
  adapter_part c' = adapter_part c → run_inv c → run_inv c'.
Proof.
  unfold adapter_part, run_inv, adapter_inv, adapter_allocated.
  intros [= -> -> -> ->]. done.
Qed.

Lemma emit_filter_adapter_part f s c :
  adapter_part (emit_filter f s c) = adapter_part c.
Proof.
  unfold emit_filter, onQmlFilterChanged, onQmlFilterChangedName.
  destruct s; simpl; try done. by case_match.
Qed.

Lemma loadFile_adapter_part repo subdir created c :
  adapter_part (loadFile repo subdir created c) = adapter_part c.
Proof. unfold loadFile, adopt. by split_tests. Qed.

Lemma loadFilterMetadata_adapter_part repo scan c :
  adapter_part (loadFilterMetadata repo scan c) = adapter_part c.
Proof.
  unfold loadFilterMetadata. revert c.
  induction scan as [|[subdir files] scan IH]; intros c; simpl; [done|].
  rewrite IH. unfold loadDir. simpl. clear IH.
  revert c. induction files as [|file files IH]; intros c; simpl; [done|].
  by rewrite IH, loadFile_adapter_part.
Qed.

(** [setCurrentFilter] keeps the live adapters in step with
    [m_currentFilter]: it deletes the adapter held before whenever it stores
    another one, and keeps it when it returns early. *)
Lemma setCurrentFilter_adapter_inv i isNew c :
  adapter_inv c → adapter_inv (setCurrentFilter i isNew c).
Proof.
  unfold adapter_inv, adapter_allocated.
  intros [Hdom Halloc].
  unfold setCurrentFilter, reset, new_QmlFilter, setIsNew.
  split_tests;
    try congruence;
    try match goal with
        | H : m_currentFilter c = Some _ |- _ => pose proof (Halloc _ H)
        end;
    try lia;
    (split;
      [ rewrite ?dom_delete_L, ?dom_alter_L, ?dom_insert_L, Hdom;
        try match goal with
            | H : m_currentFilter c = _ |- _ => rewrite H
            end;
        simpl; try done;
        apply set_eq; intros p;
        rewrite ?elem_of_difference, ?elem_of_union, ?elem_of_singleton,
          ?elem_of_empty;
        intuition (try (subst; lia))
      | intros old' Hold'; simplify_eq; simpl;
        first [ lia | apply Halloc in Hold'; lia ] ]).
Qed.

Lemma setCurrentFilter_writes i isNew c :
  Forall index_writer_ok (indexWrites c) →
  Forall index_writer_ok (indexWrites (setCurrentFilter i isNew c)).
Proof.
  intros Hws.
  unfold setCurrentFilter, reset, new_QmlFilter, setIsNew.
  split_tests; try done;
    (apply Forall_app; split; [done | apply Forall_singleton; by left]).
Qed.

Lemma setCurrentFilter_run_inv i isNew c :
  run_inv c → run_inv (setCurrentFilter i isNew c).
Proof.
  intros [Hinv Hws]. split.
  - by apply setCurrentFilter_adapter_inv.
  - by apply setCurrentFilter_writes.
Qed.

(** The first statement of the two row handlers. *)
Lemma forced_update_run_inv who c :
  who = HandleAttachedRowsRemoved ∨ who = HandleAttachedRowsInserted →
  run_inv c →
  run_inv (assign_currentFilterIndex who QmlFilter.DeselectCurrentFilter c).
Proof.
  intros Hwho [Hinv Hws]. split; [done|]. simpl.
  apply Forall_app. split; [done|]. apply Forall_singleton. by right.
Qed.

Lemma run_op_inv op c c' :
  run_inv c → run_op op c = Some c' → run_inv c'.
Proof.
  intros Hinv Hrun. destruct op; simpl in Hrun; try injection Hrun as <-.
  - eapply run_inv_adapter_part, Hinv. apply loadFilterMetadata_adapter_part.
  - done.
  - by apply setCurrentFilter_run_inv.
  - unfold onFadeInChanged. case_match; [|done].
    eapply run_inv_adapter_part, Hinv. by rewrite !emit_filter_adapter_part.
  - unfold onFadeOutChanged. case_match; [|done].
    eapply run_inv_adapter_part, Hinv. by rewrite !emit_filter_adapter_part.
  - unfold onServiceInChanged. case_match; [|done].
    eapply run_inv_adapter_part, Hinv. by rewrite !emit_filter_adapter_part.
  - unfold onServiceOutChanged. case_match; [|done].
    eapply run_inv_adapter_part, Hinv. by rewrite !emit_filter_adapter_part.
  - unfold handleAttachedModelChange. case_match; [|done].
    eapply run_inv_adapter_part, Hinv. by rewrite !emit_filter_adapter_part.
  - by apply setCurrentFilter_run_inv.
  - apply setCurrentFilter_run_inv, forced_update_run_inv; auto.
  - apply setCurrentFilter_run_inv, forced_update_run_inv; auto.
  - unfold handleAttachDuplicateFailed in Hrun.
    destruct (AttachedFiltersModel.getMetadata _ _) as [meta|]; [|done].
    simpl in Hrun. destruct (metaObjects c !! meta); [|done].
    injection Hrun as <-. by apply setCurrentFilter_run_inv.
  - done.
  - unfold onQmlFilterChangedName. by case_match.
  - unfold removeCurrent. by case_decide.
  - done.
  - done.
  - done.
Qed.

Lemma run_ops_inv ops c c' :
  run_inv c → run_ops ops c = Some c' → run_inv c'.
Proof.
  revert c. induction ops as [|op ops IH]; intros c Hinv Hrun; simpl in Hrun.
  - by injection Hrun as <-.
  - destruct (run_op op c) as [c1|] eqn:Hop; [|done].
    eapply IH, Hrun. by eapply run_op_inv.
Qed.

Lemma init_run_inv props : run_inv (init props).
Proof.
  split; [split|]; simpl.
  - apply dom_empty_L.
  - by intros old.
  - constructor.
Qed.

(** C6, as amended.  In every state a run of the controller reaches from
    its construction, taken between two calls of its member functions, there
    is at most one live adapter, the one [m_currentFilter] holds; and every
    assignment to the current filter
    index was made inside [setCurrentFilter], or was the force-refresh
    sentinel that [handleAttachedRowsRemoved] or
    [handleAttachedRowsInserted] writes itself before it calls
    [setCurrentFilter]. *)
Theorem reachable_one_adapter ops props c :
  run_ops ops (init props) = Some c →
  (size (filterObjects c) ≤ 1)%nat
  ∧ dom (filterObjects c) = from_option singleton ∅ (m_currentFilter c)
  ∧ Forall index_writer_ok (indexWrites c).
Proof.
  intros Hrun.
  destruct (run_ops_inv _ _ _ (init_run_inv props) Hrun) as [[Hdom _] Hws].
  split_and!; [|done..].
  rewrite <- size_dom, Hdom.
  destruct (m_currentFilter c); cbn [from_option].
  - by rewrite size_singleton.
  - rewrite size_empty. lia.
Qed.

(** The amended C6 at the run that attaches two filters (the second
    inserted at row [1]) and then selects the first. *)
Lemma reachable_one_adapter_witness :
  let c :=
    setCurrentFilter 0 false
      (handleAttachedRowsInserted 1 (set_attachedModel two_rows (init ∅))) in
  (size (filterObjects c) ≤ 1)%nat
  ∧ dom (filterObjects c) = from_option singleton ∅ (m_currentFilter c)
  ∧ Forall index_writer_ok (indexWrites c).
Proof.
  apply (reachable_one_adapter
           [Env_attachedModel two_rows;
            Call_handleAttachedRowsInserted 1;
            Call_setCurrentFilter 0 false] ∅).
  reflexivity.
Defined.

(** C6 as stated fails on its second half: the slot for removed rows
    assigns the index itself, outside [setCurrentFilter]. *)
Lemma index_written_outside_setCurrentFilter :
  ¬ ∀ ops props c,
      run_ops ops (init props) = Some c →
      (size (filterObjects c) ≤ 1)%nat
      ∧ Forall (λ w, w.1 = SetCurrentFilter) (indexWrites c).
Proof.
  intros Hclaim.
  destruct (Hclaim [Call_handleAttachedRowsRemoved 0] ∅ _ eq_refl)
    as [_ Hws].
  apply Forall_cons in Hws as [Hhead _]. discriminate Hhead.
Qed.

(** * Further properties *)

(** ** The loader: what it leaves alone and what it records *)

Lemma alter_last {A} (f : A → A) (l : list A) (x : A) :
  alter f (length l) (l ++ [x]) = l ++ [f x].
Proof.
  replace (length l) with (length l + 0)%nat by lia.
  by rewrite alter_app_r.
Qed.

(** The loop body for one file appends one object, which does not depend
    on the controller's state. *)
Lemma loadFile_objects repo subdir obj c :
  metaObjects (loadFile repo subdir (Some obj) c)
  = metaObjects c ++ [loadedObject repo subdir obj].
Proof.
  unfold loadedObject, loadFile, adopt, updateMeta.
  repeat case_match; simpl; rewrite ?alter_last; reflexivity.
Qed.

Lemma located_descriptors scan : (snd <$> located scan) = descriptors scan.
Proof.
  unfold located, descriptors.
  induction scan as [|d scan IH]; [done|].
  rewrite !bind_cons, fmap_app, IH. f_equal.
  rewrite <- list_fmap_compose. apply list_fmap_id.
Qed.

Lemma loadDir_objects repo d c :
  metaObjects (loadDir repo c d)
  = metaObjects c
      ++ ((λ obj, loadedObject repo (fst d) obj) <$> omap snd (snd d)).
Proof.
  unfold loadDir. destruct d as [subdir files]; simpl.
  revert c. induction files as [|[file [obj|]] files IH]; intros c.
  - simpl. by rewrite app_nil_r.
  - cbn [foldl fst snd]. rewrite IH, loadFile_objects, <- app_assoc.
    reflexivity.
  - cbn [foldl fst snd]. apply IH.
Qed.

Lemma loadFilterMetadata_objects repo scan c :
  metaObjects (loadFilterMetadata repo scan c)
  = metaObjects c
      ++ ((λ lo, loadedObject repo (fst lo) (snd lo)) <$> located scan).
Proof.
  unfold loadFilterMetadata, located.
  revert c. induction scan as [|d scan IH]; intros c.
  - simpl. by rewrite app_nil_r.
  - rewrite bind_cons, fmap_app. simpl foldl.
    rewrite IH, loadDir_objects, <- app_assoc.
    do 2 f_equal. rewrite <- list_fmap_compose. reflexivity.
Qed.

(** The object at the address of the [k]-th descriptor after a load. *)
Lemma loadFilterMetadata_lookup repo scan c k subdir obj :
  located scan !! k = Some (subdir, obj) →
  metaObjects (loadFilterMetadata repo scan c)
    !! (length (metaObjects c) + k)%nat
  = Some (loadedObject repo subdir obj).
Proof.
  intros Hk. rewrite loadFilterMetadata_objects.
  rewrite lookup_app_r by lia.
  replace (length (metaObjects c) + k - length (metaObjects c))%nat
    with k by lia.
  by rewrite list_lookup_fmap, Hk.
Qed.

(** The members and stores the loop body for one file does not touch. *)
Lemma loadFile_frame repo subdir created c :
  let c' := loadFile repo subdir created c in
  m_mltService c' = m_mltService c
  ∧ m_attachedModel c' = m_attachedModel c
  ∧ m_currentFilterIndex c' = m_currentFilterIndex c
  ∧ m_currentFilter c' = m_currentFilter c
  ∧ filterObjects c' = filterObjects c
  ∧ nextFilter c' = nextFilter c
  ∧ serviceProps c' = serviceProps c
  ∧ trace c' = trace c
  ∧ indexWrites c' = indexWrites c.
Proof. unfold loadFile, adopt. by split_tests. Qed.

Lemma loadDir_frame repo d c :
  let c' := loadDir repo c d in
  m_mltService c' = m_mltService c
  ∧ m_attachedModel c' = m_attachedModel c
  ∧ m_currentFilterIndex c' = m_currentFilterIndex c
  ∧ m_currentFilter c' = m_currentFilter c
  ∧ filterObjects c' = filterObjects c
  ∧ nextFilter c' = nextFilter c
  ∧ serviceProps c' = serviceProps c
  ∧ trace c' = trace c
  ∧ indexWrites c' = indexWrites c.
Proof.
  unfold loadDir. destruct d as [subdir files]. cbn [fst snd].
  revert c. induction files as [|file files IH]; intros c; [done|].
  cbn [foldl]. cbv zeta in IH.
  destruct (IH (loadFile repo subdir file.2 c))
    as (-> & -> & -> & -> & -> & -> & -> & -> & ->).
  apply loadFile_frame.
Qed.

Lemma loadFilterMetadata_fields repo scan c :
  let c' := loadFilterMetadata repo scan c in
  m_mltService c' = m_mltService c
  ∧ m_attachedModel c' = m_attachedModel c
  ∧ m_currentFilterIndex c' = m_currentFilterIndex c
  ∧ m_currentFilter c' = m_currentFilter c
  ∧ filterObjects c' = filterObjects c
  ∧ nextFilter c' = nextFilter c
  ∧ serviceProps c' = serviceProps c
  ∧ trace c' = trace c
  ∧ indexWrites c' = indexWrites c.
Proof.
  unfold loadFilterMetadata.
  revert c. induction scan as [|d scan IH]; intros c; [done|].
  cbn [foldl]. cbv zeta in IH.
  destruct (IH (loadDir repo c d))
    as (-> & -> & -> & -> & -> & -> & -> & -> & ->).
  apply loadDir_frame.
Qed.


Lemma loadDir_nothing repo d c :
  omap snd (snd d) = [] → loadDir repo c d = c.
Proof.
  unfold loadDir. destruct d as [subdir files]. cbn [fst snd].
  revert c. induction files as [|[file [obj|]] files IH]; intros c Hnone.
  - done.
  - discriminate Hnone.
  - cbn [foldl snd]. by apply IH.
Qed.

(** X2.  A scan that yields no descriptor (no directory, no matching file,
    or only files that fail to instantiate) leaves the controller exactly
    as it was. *)
Theorem loadFilterMetadata_nothing repo scan c :
  descriptors scan = [] → loadFilterMetadata repo scan c = c.
Proof.
  unfold loadFilterMetadata, descriptors.
  revert c. induction scan as [|d scan IH]; intros c Hnone; [done|].
  rewrite bind_cons in Hnone. apply app_nil in Hnone as [Hd Hscan].
  cbn [foldl]. rewrite loadDir_nothing by done. by apply IH.
Qed.

(** A scan of three directories: one empty, two whose file does not yield
    a descriptor. *)
Lemma loadFilterMetadata_nothing_witness :
  loadFilterMetadata engine_without_glaxnimate
    [("audio", []); ("blur", [("meta.qml", None)]);
     ("crop", [("meta_broken.qml", None)])]
    first_selected
  = first_selected.
Proof.
  apply (loadFilterMetadata_nothing engine_without_glaxnimate _ first_selected).
  reflexivity.
Defined.

(** The fields of a descriptor that the loop body never changes, and the
    name it leaves. *)
Lemma loadedObject_identity repo subdir obj :
  let obj' := loadedObject repo subdir obj in
  QmlMetadata.name obj'
  = (if QmlMetadata.isDeprecated obj
     then QmlMetadata.name obj +:+ " (DEPRECATED)"
     else QmlMetadata.name obj)
  ∧ QmlMetadata.objectName obj' = QmlMetadata.objectName obj
  ∧ QmlMetadata.mlt_service obj' = QmlMetadata.mlt_service obj
  ∧ QmlMetadata.type obj' = QmlMetadata.type obj
  ∧ QmlMetadata.isDeprecated obj' = QmlMetadata.isDeprecated obj.
Proof.
  unfold loadedObject, loadFile, adopt, updateMeta.
  repeat case_match; simpl; done.
Qed.

(** X3.  Every descriptor of a scan, accepted or not, keeps its object
    name, service, type and deprecation flag; its name is the one it was
    created with, followed by [" (DEPRECATED)"] exactly when it is flagged
    deprecated. *)
Theorem loader_labels_deprecated repo scan c k subdir obj :
  located scan !! k = Some (subdir, obj) →
  ∃ obj',
    metaObjects (loadFilterMetadata repo scan c)
      !! (length (metaObjects c) + k)%nat = Some obj'
    ∧ QmlMetadata.name obj'
      = (if QmlMetadata.isDeprecated obj
         then QmlMetadata.name obj +:+ " (DEPRECATED)"
         else QmlMetadata.name obj)
    ∧ QmlMetadata.objectName obj' = QmlMetadata.objectName obj
    ∧ QmlMetadata.mlt_service obj' = QmlMetadata.mlt_service obj
    ∧ QmlMetadata.type obj' = QmlMetadata.type obj
    ∧ QmlMetadata.isDeprecated obj' = QmlMetadata.isDeprecated obj.
Proof.
  intros Hk. eexists. split.
  - by apply loadFilterMetadata_lookup.
  - apply loadedObject_identity.
Qed.


(** X5.  The engine's version is recorded on a descriptor (as its version
    property, and by [checkVersion] on its keyframes) exactly when the
    descriptor was accepted through the filter registry, the version is not
    empty and the descriptor has keyframes; in every other case, link
    descriptors included, the version property and the keyframes stay as
    created. *)
Theorem loader_records_version repo scan c k subdir obj :
  located scan !! k = Some (subdir, obj) →
  let v := mltVersion repo (QmlMetadata.mlt_service obj) in
  ∃ obj',
    metaObjects (loadFilterMetadata repo scan c)
      !! (length (metaObjects c) + k)%nat = Some obj'
    ∧ if filterAvailable repo obj v && negb (String.eqb v "")
         && bool_decide (is_Some (QmlMetadata.keyframes obj))
      then QmlMetadata.version obj' = Some v
           ∧ QmlMetadata.keyframes obj'
             = Some (QmlMetadata.mkKeyframes (Some v))
      else QmlMetadata.version obj' = QmlMetadata.version obj
           ∧ QmlMetadata.keyframes obj' = QmlMetadata.keyframes obj.
Proof.
  intros Hk v. eexists. split; [by apply loadFilterMetadata_lookup|].
  unfold loadedObject, loadFile, adopt, updateMeta. fold v.
  destruct (QmlMetadata.keyframes obj) as [kf|] eqn:Hkf.
  - rewrite (bool_decide_eq_true_2 (is_Some (Some kf))) by eauto.
    destruct (filterAvailable repo obj v), (String.eqb v "");
      repeat case_match; simpl; rewrite ?Hkf; done.
  - rewrite (bool_decide_eq_false_2 (is_Some None)) by apply is_Some_None.
    destruct (filterAvailable repo obj v), (String.eqb v "");
      repeat case_match; simpl; rewrite ?Hkf; done.
Qed.

Lemma added_bounds repo base objs p :
  p ∈ added repo base objs → (base ≤ p < base + length objs)%nat.
Proof.
  intros (k & obj & Hk & -> & _)%elem_of_added.
  apply lookup_lt_Some in Hk. lia.
Qed.

Lemma added_NoDup repo base objs : NoDup (added repo base objs).
Proof.
  revert base. induction objs as [|obj objs IH]; intros base; simpl.
  - constructor.
  - apply NoDup_app. split_and!.
    + case_match; [apply NoDup_singleton | constructor].
    + intros p Hp Hlater. apply added_bounds in Hlater.
      case_match; [|by apply elem_of_nil in Hp].
      apply list_elem_of_singleton in Hp. lia.
    + apply IH.
Qed.

Lemma loadFilterMetadata_wf repo scan c :
  metadata_wf c → metadata_wf (loadFilterMetadata repo scan c).
Proof.
  intros [Hnodup Hvalid]. unfold metadata_wf.
  destruct (loadFilterMetadata_model repo scan c) as [-> ->].
  rewrite Forall_forall in Hvalid. split.
  - apply NoDup_app. split_and!; [done | | apply added_NoDup].
    intros p Hp Hnew. apply Hvalid in Hp. apply added_bounds in Hnew. lia.
  - apply Forall_app. split; apply Forall_forall; intros p Hp.
    + apply Hvalid in Hp. lia.
    + apply added_bounds in Hp. lia.
Qed.

(** X6.  A load keeps the metadata model well formed: if every row held
    the address of an existing descriptor, and no address twice, this is
    still so afterwards (no descriptor is added twice, and none is added
    that was not created). *)
Theorem loadFilterMetadata_keeps_wf repo scan c :
  metadata_wf c → metadata_wf (loadFilterMetadata repo scan c).
Proof. apply loadFilterMetadata_wf. Qed.

(** ** Looking up the metadata of a service *)

Section MetadataForService.
Context (uniqueId : QmlMetadata.t → string) (id : string)
  (objects : list QmlMetadata.t).

Lemma metadataForService_rows_found rows meta :
  metadataForService_rows uniqueId id objects rows = Some (Some meta) →
  ∃ i obj,
    rows !! i = Some meta ∧ objects !! meta = Some obj ∧ uniqueId obj = id
    ∧ ∀ j m o, (j < i)%nat → rows !! j = Some m → objects !! m = Some o →
               uniqueId o ≠ id.
Proof.
  induction rows as [|tmp rows IH]; simpl; [done|].
  destruct (objects !! tmp) as [obj|] eqn:Hobj; simpl; [|done].
  destruct (String.eqb (uniqueId obj) id) eqn:Heq.
  - intros [= <-]. apply String.eqb_eq in Heq.
    exists 0%nat, obj. split_and!; [done..|]. intros; lia.
  - intros (i & o & Hi & Ho & Hid & Hfirst)%IH.
    exists (S i), o. split_and!; [done..|].
    intros [|j] m o' Hlt Hm Ho'; simpl in Hm.
    + simplify_eq. by apply String.eqb_neq.
    + apply (Hfirst j m o'); [lia | done..].
Qed.

Lemma metadataForService_rows_total rows :
  Forall (λ q, (q < length objects)%nat) rows →
  ∃ r, metadataForService_rows uniqueId id objects rows = Some r
       ∧ (r = None ↔ ∀ m o, m ∈ rows → objects !! m = Some o →
                            uniqueId o ≠ id).
Proof.
  induction 1 as [|tmp rows Htmp Hrows IH]; simpl.
  - exists None. split; [done|]. split; [|done].
    intros _ m o Hm. by apply elem_of_nil in Hm.
  - destruct (lookup_lt_is_Some_2 objects tmp Htmp) as [obj Hobj].
    rewrite Hobj. simpl.
    destruct (String.eqb (uniqueId obj) id) eqn:Heq.
    + exists (Some tmp). split; [done|]. split; [done|].
      intros Hnone. apply String.eqb_eq in Heq.
      destruct (Hnone tmp obj); [apply list_elem_of_here | done..].
    + destruct IH as (r & -> & Hr). exists r. split; [done|].
      rewrite Hr. apply String.eqb_neq in Heq. split.
      * intros Hnone m o [->|Hm]%elem_of_cons Ho; [congruence|eauto].
      * intros Hnone m o Hm. apply Hnone. by apply list_elem_of_further.
Qed.

End MetadataForService.

(** X7.  When [metadataForService] returns a descriptor, it is a row of the
    metadata model, its unique id is the one looked for (the service's
    [kShotcutFilterProperty], or its [mlt_service] when that is empty), and
    no earlier row has that unique id. *)
Theorem metadataForService_found kProp uniqueId get c meta :
  metadataForService kProp uniqueId get c = Some (Some meta) →
  ∃ i obj,
    m_metadataModel c !! i = Some meta
    ∧ metaObjects c !! meta = Some obj
    ∧ uniqueId obj = serviceUniqueId kProp get
    ∧ ∀ j m o, (j < i)%nat → m_metadataModel c !! j = Some m →
               metaObjects c !! m = Some o →
               uniqueId o ≠ serviceUniqueId kProp get.
Proof. apply metadataForService_rows_found. Qed.

(** X8.  On a metadata model whose rows all hold existing descriptors,
    [metadataForService] has a result, and the result is null exactly when
    no row has the unique id looked for. *)
Theorem metadataForService_null kProp uniqueId get c :
  Forall (λ q, (q < length (metaObjects c))%nat) (m_metadataModel c) →
  ∃ r, metadataForService kProp uniqueId get c = Some r
       ∧ (r = None
          ↔ ∀ m o, m ∈ m_metadataModel c → metaObjects c !! m = Some o →
                   uniqueId o ≠ serviceUniqueId kProp get).
Proof. apply metadataForService_rows_total. Qed.

(** X9.  Load, then look up.  Let the unique id of a descriptor depend only
    on its object name and service.  After a load into a well-formed
    controller, a service that carries the unique id of a descriptor the
    loader accepted is resolved to a descriptor of the metadata model with
    that unique id. *)
Theorem loaded_descriptor_found repo scan c kProp uniqueId get k subdir obj :
  (∀ m m', QmlMetadata.objectName m = QmlMetadata.objectName m' →
           QmlMetadata.mlt_service m = QmlMetadata.mlt_service m' →
           uniqueId m = uniqueId m') →
  metadata_wf c →
  located scan !! k = Some (subdir, obj) →
  accepts repo obj = true →
  serviceUniqueId kProp get = uniqueId obj →
  ∃ meta obj',
    metadataForService kProp uniqueId get (loadFilterMetadata repo scan c)
    = Some (Some meta)
    ∧ meta ∈ m_metadataModel (loadFilterMetadata repo scan c)
    ∧ metaObjects (loadFilterMetadata repo scan c) !! meta = Some obj'
    ∧ uniqueId obj' = uniqueId obj.
Proof.
  intros Hstable Hwf Hk Hacc Hid.
  pose proof (loadFilterMetadata_wf repo scan c Hwf) as [_ Hvalid].
  unfold metadataForService. rewrite Hid.
  destruct (metadataForService_rows_total uniqueId (uniqueId obj) _ _ Hvalid)
    as ([meta|] & Hres & Hnull).
  - apply metadataForService_rows_found in Hres as Hfound.
    destruct Hfound as (i & obj' & Hi & Hobj' & Huid & _).
    exists meta, obj'. split_and!; [done | | done..].
    by eapply list_elem_of_lookup_2.
  - exfalso.
    destruct Hnull as [Hnone _]. specialize (Hnone eq_refl).
    apply (Hnone (length (metaObjects c) + k)%nat
             (loadedObject repo subdir obj)).
    + destruct (loadFilterMetadata_model repo scan c) as [-> _].
      apply elem_of_app. right. apply elem_of_added.
      exists k, obj. split_and!; [|done..].
      by rewrite <- located_descriptors, list_lookup_fmap, Hk.
    + by apply loadFilterMetadata_lookup.
    + destruct (loadedObject_identity repo subdir obj) as (_ & Hn & Hs & _).
      by apply Hstable.
Qed.

(** ** Selection: every outcome of [setCurrentFilter] *)

Lemma getMetadata_Some_nonneg m i meta :
  AttachedFiltersModel.getMetadata m i = Some meta →
  0 ≤ i < AttachedFiltersModel.rowCount m.
Proof.
  unfold AttachedFiltersModel.getMetadata, AttachedFiltersModel.row,
    AttachedFiltersModel.rowCount.
  destruct (0 <=? i) eqn:Hle; [|done].
  destruct (m !! Z.to_nat i) as [e|] eqn:He; [|done].
  intros _. apply lookup_lt_Some in He. lia.
Qed.

(** The four ways a call of [setCurrentFilter] can go: nothing (the index
    is the current one); an early return (metadata but no service); a
    deselection (no metadata); a rebuild. *)
Lemma setCurrentFilter_outcome i isNew c :
  adapter_allocated c →
  let c' := setCurrentFilter i isNew c in
  let without_old :=
    from_option (λ old, delete old (filterObjects c)) (filterObjects c)
      (m_currentFilter c) in
  c' = c
  ∨ (0 ≤ i
     ∧ m_currentFilter c' = m_currentFilter c
     ∧ filterObjects c' = filterObjects c
     ∧ nextFilter c' = nextFilter c
     ∧ m_mltService c' = None
     ∧ created (trace c') = created (trace c)
     ∧ deleted (trace c') = deleted (trace c))
  ∨ (m_currentFilter c' = None
     ∧ filterObjects c' = without_old
     ∧ nextFilter c' = nextFilter c
     ∧ m_mltService c' = m_mltService c
     ∧ created (trace c') = created (trace c)
     ∧ deleted (trace c') = deleted (trace c) ++ option_list (m_currentFilter c))
  ∨ (0 ≤ i
     ∧ ∃ svc meta,
         m_currentFilter c' = Some (nextFilter c)
         ∧ filterObjects c'
           = <[nextFilter c := QmlFilter.mk svc meta isNew]> without_old
         ∧ nextFilter c' = S (nextFilter c)
         ∧ m_mltService c' = Some svc
         ∧ created (trace c') = created (trace c) ++ [nextFilter c]
         ∧ deleted (trace c')
           = deleted (trace c) ++ option_list (m_currentFilter c)).
Proof.
  intros Halloc. cbv zeta.
  assert (m_currentFilter c ≠ Some (nextFilter c)) as Hfresh.
  { intros Hold. apply Halloc in Hold. lia. }
  unfold setCurrentFilter, get_int.
  case_decide as Hi; [by left|]. right. simpl.
  destruct (AttachedFiltersModel.getMetadata (m_attachedModel c) i)
    as [meta|] eqn:Hmeta;
    [ destruct (AttachedFiltersModel.getService (m_attachedModel c) i)
        as [svc|] eqn:Hsvc | ].
  - right. right. split; [by eapply getMetadata_Some_nonneg|].
    exists svc, meta.
    destruct (m_mltService c) as [bound|] eqn:Hbound; simpl;
      [ destruct (decide (_ ≠ 0)); simpl | ];
      rewrite Hmeta; simpl; rewrite Hsvc; simpl;
      unfold reset; simpl; rewrite decide_False by done;
      destruct (m_currentFilter c) as [old|] eqn:Hold; simpl;
      unfold created, deleted; rewrite ?omap_app; simpl;
      rewrite ?app_nil_r, ?alter_insert_eq; simpl;
      rewrite ?delete_insert_ne by congruence; done.
  - left. split; [by eapply getMetadata_Some_nonneg|].
    destruct (m_mltService c) as [bound|] eqn:Hbound; simpl;
      [ destruct (decide (_ ≠ 0)); simpl | ];
      rewrite Hmeta; simpl; rewrite Hsvc; simpl;
      unfold created, deleted; rewrite ?omap_app; simpl;
      rewrite ?app_nil_r; done.
  - right. left.
    destruct (m_mltService c) as [bound|] eqn:Hbound; simpl;
      [ destruct (decide (_ ≠ 0)); simpl | ];
      rewrite Hmeta; simpl;
      unfold reset; simpl;
      destruct (m_currentFilter c) as [old|] eqn:Hold; simpl;
      rewrite ?decide_False by done; rewrite ?decide_True by done; simpl;
      unfold created, deleted; rewrite ?omap_app; simpl;
      rewrite ?app_nil_r, ?Hbound; done.
Qed.

(** ** Runs: allocation and binding of adapters *)

Lemma setCurrentFilter_allocation_inv i isNew c :
  allocation_inv c → allocation_inv (setCurrentFilter i isNew c).
Proof.
  intros (Hadp & Hcreated & Hnodup & Hdeleted).
  pose proof (setCurrentFilter_adapter_inv i isNew c Hadp) as Hadp'.
  pose proof Hadp as [_ Halloc].
  destruct (setCurrentFilter_outcome i isNew c Halloc)
    as [Hsame | [(_ & Hcur & _ & Hnext & _ & Hcr & Hdel)
           | [(Hcur & _ & Hnext & _ & Hcr & Hdel)
             | (_ & svc & meta & Hcur & _ & Hnext & _ & Hcr & Hdel)]]];
    unfold allocation_inv.
  - rewrite Hsame. by split_and!.
  - rewrite Hcr, Hdel, Hnext, Hcur. by split_and!.
  - rewrite Hcr, Hdel, Hnext, Hcur. split_and!; [done..| |].
    + destruct (m_currentFilter c) as [old|] eqn:Hold; simpl.
      * apply NoDup_app. split_and!; [done | | apply NoDup_singleton].
        intros p Hp ->%list_elem_of_singleton.
        apply Hdeleted in Hp as [_ Hp]. done.
      * by rewrite app_nil_r.
    + intros p. rewrite elem_of_app, Hdeleted.
      destruct (m_currentFilter c) as [old|] eqn:Hold; simpl.
      * rewrite list_elem_of_singleton. specialize (Halloc old Hold).
        destruct (decide (p = old)) as [->|Hne];
          [split; [intros _; by split | by right]|].
        split; [intros [[? _]|?]; done|]. intros [? _]. left.
        split; [done | congruence].
      * rewrite elem_of_nil. tauto.
  - rewrite Hcr, Hdel, Hnext, Hcur, Hcreated. split_and!; [done | | |].
    + by rewrite seq_S.
    + destruct (m_currentFilter c) as [old|] eqn:Hold; simpl.
      * apply NoDup_app. split_and!; [done | | apply NoDup_singleton].
        intros p Hp ->%list_elem_of_singleton.
        apply Hdeleted in Hp as [_ Hp]. done.
      * by rewrite app_nil_r.
    + intros p. rewrite elem_of_app, Hdeleted.
      destruct (m_currentFilter c) as [old|] eqn:Hold; simpl.
      * rewrite list_elem_of_singleton. specialize (Halloc old Hold).
        destruct (decide (p = old)) as [->|Hne].
        -- split; [intros _|by right]. split; [lia|]. intros [= ?]. lia.
        -- split.
           ++ intros [[? _]|?]; [|done]. split; [lia|]. intros [= ?]. lia.
           ++ intros [Hlt Hnew]. left. split; [|congruence].
              destruct (decide (p = nextFilter c)) as [->|?]; [done|lia].
      * rewrite elem_of_nil. split.
        -- intros [[? _]|[]]. split; [lia|]. intros [= ?]. lia.
        -- intros [Hlt Hnew]. left. split; [|done].
           destruct (decide (p = nextFilter c)) as [->|?]; [done|lia].
Qed.

Lemma setCurrentFilter_held_bound i isNew c :
  adapter_allocated c → held_bound c →
  held_bound (setCurrentFilter i isNew c).
Proof.
  intros Halloc Hheld.
  destruct (setCurrentFilter_outcome i isNew c Halloc)
    as [-> | [(_ & Hcur & Hobjs & _ & Hsvc & _)
           | [(Hcur & _)
             | (_ & svc & meta & Hcur & Hobjs & _ & Hsvc & _)]]];
    unfold held_bound.
  - done.
  - rewrite Hcur, Hobjs, Hsvc. intros a Ha.
    destruct (Hheld a Ha) as (f & Hf & _). by exists f.
  - by rewrite Hcur.
  - rewrite Hcur, Hobjs, Hsvc. intros a [= <-].
    eexists. split; [apply lookup_insert_eq|]. by intros s [= <-].
Qed.

Lemma setCurrentFilter_negative_index i isNew c :
  adapter_allocated c →
  0 ≤ i ∨ (m_currentFilterIndex c < 0 → m_currentFilter c = None) →
  m_currentFilterIndex (setCurrentFilter i isNew c) < 0 →
  m_currentFilter (setCurrentFilter i isNew c) = None.
Proof.
  intros Halloc Hbefore. rewrite setCurrentFilter_index. intros Hneg.
  destruct Hbefore as [?|Hbefore]; [lia|].
  destruct (setCurrentFilter_outcome i isNew c Halloc)
    as [Hsame | [(? & _) | [(Hcur & _) | (? & _)]]]; try lia; [|done].
  rewrite Hsame. apply Hbefore.
  rewrite <- Hsame, setCurrentFilter_index. done.
Qed.

Lemma reach_inv_quiet c c' :
  selection_part c' = selection_part c →
  created (trace c') = created (trace c) →
  deleted (trace c') = deleted (trace c) →
  reach_inv c → reach_inv c'.
Proof.
  unfold selection_part, reach_inv, allocation_inv, binding_inv,
    held_bound, adapter_inv, adapter_allocated.
  intros [= -> -> -> -> ->] -> ->. done.
Qed.

Lemma setCurrentFilter_reach_inv i isNew c :
  reach_inv c → reach_inv (setCurrentFilter i isNew c).
Proof.
  intros [Halloc [Hheld Hneg]].
  pose proof Halloc as ([_ Ha] & _).
  split; [by apply setCurrentFilter_allocation_inv|]. split.
  - by apply setCurrentFilter_held_bound.
  - apply setCurrentFilter_negative_index; [done | by right].
Qed.

Lemma forced_update_reach_inv who first isNew c :
  let c1 :=
    assign_currentFilterIndex who QmlFilter.DeselectCurrentFilter c in
  reach_inv c →
  reach_inv
    (setCurrentFilter
       (Qt.qBound 0 first
          (AttachedFiltersModel.rowCount (m_attachedModel c1) - 1))
       isNew c1).
Proof.
  intros c1 [Halloc [Hheld Hneg]].
  pose proof Halloc as ([_ Ha] & _).
  split; [by apply setCurrentFilter_allocation_inv|]. split.
  - by apply setCurrentFilter_held_bound.
  - apply setCurrentFilter_negative_index; [done|].
    left. apply qBound_range.
Qed.

Lemma emit_filter_quiet f s c :
  selection_part (emit_filter f s c) = selection_part c
  ∧ created (trace (emit_filter f s c)) = created (trace c)
  ∧ deleted (trace (emit_filter f s c)) = deleted (trace c).
Proof.
  unfold emit_filter, onQmlFilterChanged, onQmlFilterChangedName,
    created, deleted.
  destruct s; simpl; try case_match; simpl;
    rewrite ?omap_app; simpl; rewrite ?app_nil_r; done.
Qed.

Lemma reach_inv_emit_filter f s c :
  reach_inv c → reach_inv (emit_filter f s c).
Proof.
  destruct (emit_filter_quiet f s c) as (? & ? & ?).
  by apply reach_inv_quiet.
Qed.

Lemma reach_inv_emit e c :
  (∀ p, e ≠ newQmlFilter p) → (∀ p, e ≠ deleteQmlFilter p) →
  reach_inv c → reach_inv (emit e c).
Proof.
  intros Hnew Hdel. apply reach_inv_quiet; [done | |];
    unfold created, deleted; simpl; rewrite omap_app; simpl;
    destruct e; simpl; rewrite ?app_nil_r; try done.
  - by destruct (Hnew filter).
  - by destruct (Hdel filter).
Qed.

Lemma run_op_reach_inv op c c' :
  reach_inv c → run_op op c = Some c' → reach_inv c'.
Proof.
  intros Hinv Hrun. destruct op; simpl in Hrun; try injection Hrun as <-.
  - destruct (loadFilterMetadata_fields repo scan c)
      as (? & ? & ? & ? & ? & ? & ? & Htrace & ?).
    apply (reach_inv_quiet c); [| by rewrite Htrace.. | done].
    unfold selection_part. congruence.
  - done.
  - by apply setCurrentFilter_reach_inv.
  - unfold onFadeInChanged. case_match; [|done].
    by do 2 apply reach_inv_emit_filter.
  - unfold onFadeOutChanged. case_match; [|done].
    by do 2 apply reach_inv_emit_filter.
  - unfold onServiceInChanged. case_match; [|done].
    by apply reach_inv_emit_filter.
  - unfold onServiceOutChanged. case_match; [|done].
    by apply reach_inv_emit_filter.
  - unfold handleAttachedModelChange. case_match; [|done].
    by apply reach_inv_emit_filter.
  - by apply setCurrentFilter_reach_inv.
  - by apply forced_update_reach_inv.
  - by apply forced_update_reach_inv.
  - unfold handleAttachDuplicateFailed in Hrun.
    destruct (AttachedFiltersModel.getMetadata _ _) as [meta|]; [|done].
    simpl in Hrun. destruct (metaObjects c !! meta); [|done].
    injection Hrun as <-.
    by apply setCurrentFilter_reach_inv, reach_inv_emit.
  - by apply reach_inv_emit.
  - unfold onQmlFilterChangedName. case_match; [|done].
    by apply reach_inv_emit.
  - unfold removeCurrent. case_decide; [|done]. by apply reach_inv_emit.
  - by apply reach_inv_emit.
  - done.
  - done.
Qed.

Lemma run_ops_reach_inv ops c c' :
  reach_inv c → run_ops ops c = Some c' → reach_inv c'.
Proof.
  revert c. induction ops as [|op ops IH]; intros c Hinv Hrun; simpl in Hrun.
  - by injection Hrun as <-.
  - destruct (run_op op c) as [c1|] eqn:Hop; [|done].
    eapply IH, Hrun. by eapply run_op_reach_inv.
Qed.

Lemma init_reach_inv props : reach_inv (init props).
Proof.
  unfold reach_inv, allocation_inv, binding_inv, held_bound, adapter_inv,
    adapter_allocated.
  simpl. split_and!; try done; try apply dom_empty_L.
  - constructor.
  - intros p. rewrite elem_of_nil. split; [done | lia].
Qed.


(** X11.  In every state a run reaches, the adapter the controller holds
    is live, and it is bound to the service in [m_mltService] whenever that
    member is not null; and while the current filter index is negative the
    controller holds no adapter. *)
Theorem reachable_adapter_bound ops props c :
  run_ops ops (init props) = Some c →
  (∀ a, m_currentFilter c = Some a →
        ∃ f, filterObjects c !! a = Some f
             ∧ ∀ s, m_mltService c = Some s → QmlFilter.service f = s)
  ∧ (m_currentFilterIndex c < 0 → m_currentFilter c = None).
Proof.
  intros Hrun.
  by destruct (run_ops_reach_inv _ _ _ (init_reach_inv props) Hrun)
    as [_ Hbinding].
Qed.

(** X12.  When the attached model is about to be reset, in any state a run
    reaches, the controller ends with no selection: the index is
    [NoCurrentFilter], no adapter is held and none is live. *)
Theorem aboutToReset_releases ops props c :
  run_ops ops (init props) = Some c →
  let c' := handleAttachedModelAboutToReset c in
  m_currentFilterIndex c' = QmlFilter.NoCurrentFilter
  ∧ m_currentFilter c' = None
  ∧ filterObjects c' = ∅.
Proof.
  intros Hrun c'.
  pose proof (run_ops_reach_inv _ _ _ (init_reach_inv props) Hrun) as Hinv.
  apply (setCurrentFilter_reach_inv QmlFilter.NoCurrentFilter false) in Hinv.
  fold (handleAttachedModelAboutToReset c) in Hinv. fold c' in Hinv.
  destruct Hinv as [([Hdom _] & _) [_ Hneg]].
  assert (m_currentFilterIndex c' = QmlFilter.NoCurrentFilter) as Hidx
    by apply setCurrentFilter_index.
  assert (m_currentFilter c' = None) as Hnone.
  { apply Hneg. rewrite Hidx. done. }
  split_and!; [done..|].
  rewrite Hnone in Hdom. by apply dom_empty_iff_L.
Qed.

(** ** Selection: the cases the rebuild leaves out *)

(** X13.  Selecting a row without metadata (a negative index, a row beyond
    the list, an entry whose filter has no descriptor) deselects: after the
    refresh for a hidden service, the only notification carries no filter,
    no metadata and the requested index; then the adapter held before is
    deleted.  No adapter is held afterwards; [m_mltService] is not
    cleared. *)
Theorem setCurrentFilter_deselects c idx isNew :
  idx ≠ m_currentFilterIndex c →
  AttachedFiltersModel.getMetadata (m_attachedModel c) idx = None →
  let c' := setCurrentFilter idx isNew c in
  trace c'
  = trace c ++ unhide_events c
      ++ [currentFilterChanged None None idx] ++ delete_events c
  ∧ m_currentFilter c' = None
  ∧ filterObjects c'
    = from_option (λ old, delete old (filterObjects c)) (filterObjects c)
        (m_currentFilter c)
  ∧ m_currentFilterIndex c' = idx
  ∧ m_mltService c' = m_mltService c.
Proof.
  intros Hne Hmeta. cbv zeta.
  unfold setCurrentFilter, unhide_events, delete_events, get_int.
  rewrite decide_False by done. simpl.
  destruct (m_mltService c) as [bound|] eqn:Hbound; simpl;
    [ destruct (decide (_ ≠ 0)); simpl | ];
    rewrite Hmeta; simpl; unfold reset; simpl;
    destruct (m_currentFilter c) as [old|] eqn:Hold; simpl;
    rewrite ?decide_False by done; rewrite ?decide_True by done; simpl;
    rewrite <- ?app_assoc, ?Hbound; simpl; done.
Qed.

(** X14.  The two row handlers force the update: even when the bounded row
    is the one already current, a row with metadata and a service gets a
    fresh adapter bound to them; the adapter is marked new after an
    insertion and not new after a removal. *)
Theorem rows_changed_rebuilds first c meta svc :
  let i :=
    Qt.qBound 0 first (AttachedFiltersModel.rowCount (m_attachedModel c) - 1) in
  AttachedFiltersModel.getMetadata (m_attachedModel c) i = Some meta →
  AttachedFiltersModel.getService (m_attachedModel c) i = Some svc →
  (m_currentFilter (handleAttachedRowsRemoved first c) = Some (nextFilter c)
   ∧ filterObjects (handleAttachedRowsRemoved first c) !! nextFilter c
     = Some (QmlFilter.mk svc meta false))
  ∧ (m_currentFilter (handleAttachedRowsInserted first c)
     = Some (nextFilter c)
     ∧ filterObjects (handleAttachedRowsInserted first c) !! nextFilter c
       = Some (QmlFilter.mk svc meta true)).
Proof.
  intros i Hmeta Hsvc.
  unfold handleAttachedRowsRemoved, handleAttachedRowsInserted.
  assert (i ≠ QmlFilter.DeselectCurrentFilter) as Hne.
  { pose proof (qBound_range 0 first
      (AttachedFiltersModel.rowCount (m_attachedModel c) - 1)).
    unfold QmlFilter.DeselectCurrentFilter. subst i. lia. }
  split;
    match goal with
    | |- context [setCurrentFilter ?j ?n ?c1] =>
        apply (setCurrentFilter_binds c1 j n meta svc); done
    end.
Qed.

(** X15.  When rows are inserted or removed at a position that is a row of
    the list afterwards, that row becomes the current one. *)
Theorem rows_changed_selects_first first c :
  0 ≤ first < AttachedFiltersModel.rowCount (m_attachedModel c) →
  m_currentFilterIndex (handleAttachedRowsInserted first c) = first
  ∧ m_currentFilterIndex (handleAttachedRowsRemoved first c) = first.
Proof.
  intros Hrow.
  unfold handleAttachedRowsRemoved, handleAttachedRowsInserted.
  rewrite !setCurrentFilter_index. simpl.
  unfold Qt.qBound, Qt.qMax, Qt.qMin. repeat case_match; lia.
Qed.

(** X16.  A change of selection unhides the service that was bound: after
    [setCurrentFilter] with another index, the [_hide] property of the
    service bound before reads zero, the consumer was refreshed exactly
    when it did not read zero before, and no other property of any service
    has changed. *)
Theorem setCurrentFilter_unhides c idx isNew bound :
  idx ≠ m_currentFilterIndex c →
  m_mltService c = Some bound →
  let c' := setCurrentFilter idx isNew c in
  get_int bound "_hide" c' = 0
  ∧ (refreshConsumer ∈ since c c' ↔ get_int bound "_hide" c ≠ 0)
  ∧ ∀ svc name,
      (Mlt.get_service svc, name) ≠ (Mlt.get_service bound, "_hide") →
      get_int svc name c' = get_int svc name c.
Proof.
  intros Hne Hbound. cbv zeta.
  assert (serviceProps (setCurrentFilter idx isNew c)
          = if decide (get_int bound "_hide" c ≠ 0)
            then alter (delete "_hide") (Mlt.get_service bound)
                   (serviceProps c)
            else serviceProps c) as Hprops.
  { unfold setCurrentFilter, reset, get_int.
    rewrite decide_False by done. simpl. rewrite Hbound.
    destruct (decide (_ ≠ 0)); simpl; repeat case_match; simpl; done. }
  split_and!.
  - unfold get_int in *. rewrite Hprops.
    destruct (decide (_ ≠ 0)) as [Hhide|Hhide].
    + rewrite lookup_alter_eq.
      destruct (serviceProps c !! Mlt.get_service bound) as [m|]; simpl;
        [by rewrite lookup_delete_eq | done].
    + by apply dec_stable in Hhide.
  - unfold since, setCurrentFilter, reset, new_QmlFilter, get_int.
    rewrite decide_False by done. simpl. rewrite Hbound.
    destruct (decide (_ ≠ 0)) as [Hhide|Hhide]; simpl;
      repeat case_match; simpl;
      rewrite <- ?app_assoc; rewrite drop_app_length; simpl;
      (split; [intros Hin | intros Hhide']); try done;
      repeat match goal with
             | H : _ ∈ _ :: _ |- _ => apply elem_of_cons in H as [?|H];
                                       try done
             | H : _ ∈ [] |- _ => by apply elem_of_nil in H
             end;
      try apply list_elem_of_here.
  - intros svc name Hother. unfold get_int. rewrite Hprops.
    destruct (decide (_ ≠ 0)) as [Hhide|Hhide]; [|done].
    destruct (decide (Mlt.get_service svc = Mlt.get_service bound))
      as [Heq|Hneq].
    + rewrite Heq, lookup_alter_eq.
      destruct (serviceProps c !! Mlt.get_service bound) as [m|]; simpl;
        [|done].
      rewrite lookup_delete_ne; [done|]. congruence.
    + by rewrite lookup_alter_ne.
Qed.

(** X17.  Selecting the same row twice in a row is selecting it once: the
    second call finds the index current and does nothing, whatever became
    of the first (a rebuild, a deselection, or an early return). *)
Theorem setCurrentFilter_twice i isNew isNew' c :
  setCurrentFilter i isNew' (setCurrentFilter i isNew c)
  = setCurrentFilter i isNew c.
Proof.
  unfold setCurrentFilter at 1.
  by rewrite decide_True by (symmetry; apply setCurrentFilter_index).
Qed.

(** X18.  A duplicate-attach report for the row that is already current
    only shows the status message: apart from that one signal the state is
    the one before. *)
Theorem duplicate_of_current_row c meta obj :
  AttachedFiltersModel.getMetadata (m_attachedModel c)
    (m_currentFilterIndex c) = Some meta →
  metaObjects c !! meta = Some obj →
  handleAttachDuplicateFailed (m_currentFilterIndex c) c
  = Some (emit (statusChanged
                  ("Only one " +:+ QmlMetadata.name obj
                   +:+ " filter is allowed.")) c).
Proof.
  intros Hmeta Hobj. unfold handleAttachDuplicateFailed.
  rewrite Hmeta. simpl. rewrite Hobj. simpl.
  unfold setCurrentFilter. simpl. by rewrite decide_True.
Qed.

(** X19.  After the last attached filter was removed the index is [0], and
    [removeCurrent] then does ask the attached model to remove row [0],
    although the list has no row. *)
Theorem removeCurrent_after_last_removed first c :
  m_attachedModel c = [] →
  let c' := handleAttachedRowsRemoved first c in
  m_currentFilterIndex c' = 0
  ∧ m_attachedModel c' = []
  ∧ removeCurrent c' = emit (attachedRemove 0) c'.
Proof.
  intros Hempty c'.
  assert (m_currentFilterIndex c' = 0) as Hidx.
  { unfold c', handleAttachedRowsRemoved.
    rewrite setCurrentFilter_index. simpl. rewrite Hempty.
    pose proof (qBound_range 0 first (AttachedFiltersModel.rowCount [] - 1))
      as Hrange.
    unfold AttachedFiltersModel.rowCount in *. simpl in *. lia. }
  split_and!; [done | |].
  - unfold c', handleAttachedRowsRemoved.
    by rewrite setCurrentFilter_attachedModel.
  - unfold removeCurrent. rewrite Hidx. done.
Qed.

(** ** Event relay: when a change is forwarded *)

(** X20.  A non-zero in-point or out-point change is forwarded to the live
    current adapter when it names no service, or a service with the engine
    handle of the adapter's service: the adapter's [inChanged] (or
    [outChanged]) with the same delta is the one thing that happens. *)
Theorem service_change_forwarded delta service c f a :
  delta ≠ 0 →
  m_currentFilter c = Some f →
  filterObjects c !! f = Some a →
  (∀ s, service = Some s →
        Mlt.get_service (QmlFilter.service a) = Mlt.get_service s) →
  onServiceInChanged delta service c
  = emit (filterSignal f (QmlFilter.inChanged delta)) c
  ∧ onServiceOutChanged delta service c
    = emit (filterSignal f (QmlFilter.outChanged delta)) c.
Proof.
  intros Hdelta Hf Ha Hsame.
  assert (relayTarget delta service c = Some f) as Htarget.
  { unfold relayTarget, sameService.
    rewrite decide_False by done. rewrite Hf.
    destruct service as [s|]; [|done].
    rewrite Ha. by rewrite bool_decide_eq_true_2 by eauto. }
  unfold onServiceInChanged, onServiceOutChanged. by rewrite Htarget.
Qed.

Lemma only_signals_refl c : only_signals c c.
Proof. exists []. rewrite app_nil_r. split; [by destruct c | done]. Qed.

Lemma only_signals_emit e c : relay_event e → only_signals c (emit e c).
Proof. intros He. exists [e]. split; [done | by constructor]. Qed.

Lemma only_signals_trans c1 c2 c3 :
  only_signals c1 c2 → only_signals c2 c3 → only_signals c1 c3.
Proof.
  intros (new1 & -> & Hnew1) (new2 & -> & Hnew2). simpl.
  exists (new1 ++ new2). rewrite app_assoc.
  split; [done | by apply Forall_app].
Qed.

Lemma only_signals_emit_filter f s c : only_signals c (emit_filter f s c).
Proof.
  unfold emit_filter, onQmlFilterChanged, onQmlFilterChangedName.
  destruct s; cbv beta zeta iota; try case_match;
    first
      [ apply only_signals_emit; done
      | eapply only_signals_trans; [|apply only_signals_emit; done];
        apply only_signals_emit; done ].
Qed.

(** X21.  The relay slots (fade in and out, in and out point, model
    change, the two slots for a changed filter, producer change) never
    touch the controller's members, the adapters, the descriptors or the
    engine's properties: they leave everything but the trace as it was, and
    what they add to the trace are signals only (no selection change, no
    adapter built or deleted, no row removed). *)
Theorem relay_slots_only_signal op c c' :
  is_relay op = true →
  run_op op c = Some c' →
  ∃ new,
    c' = mkFilterController (m_mltService c) (m_metadataModel c)
           (m_attachedModel c) (m_currentFilterIndex c) (m_currentFilter c)
           (metaObjects c) (filterObjects c) (nextFilter c) (serviceProps c)
           (trace c ++ new) (indexWrites c)
    ∧ Forall relay_event new.
Proof.
  intros Hrelay Hrun. change (only_signals c c').
  destruct op; try discriminate Hrelay; simpl in Hrun;
    injection Hrun as <-.
  - unfold onFadeInChanged. case_match; [|apply only_signals_refl].
    eapply only_signals_trans; apply only_signals_emit_filter.
  - unfold onFadeOutChanged. case_match; [|apply only_signals_refl].
    eapply only_signals_trans; apply only_signals_emit_filter.
  - unfold onServiceInChanged.
    case_match; [apply only_signals_emit_filter | apply only_signals_refl].
  - unfold onServiceOutChanged.
    case_match; [apply only_signals_emit_filter | apply only_signals_refl].
  - unfold handleAttachedModelChange.
    case_match; [apply only_signals_emit_filter | apply only_signals_refl].
  - by apply only_signals_emit.
  - unfold onQmlFilterChangedName.
    case_match; [by apply only_signals_emit | apply only_signals_refl].
  - by apply only_signals_emit.
Qed.

(** X22.  A fade-in or fade-out change reaches the listeners in this
    order: the adapter's [changed], then, through the slot connected to it,
    [filterChanged] with the service in [m_mltService], then the adapter's
    [animateInChanged] (or [animateOutChanged]).  Without an adapter
    nothing happens. *)
Theorem fade_relayed c :
  since c (onFadeInChanged c)
  = from_option
      (λ f, [filterSignal f QmlFilter.changed;
             filterChanged (m_mltService c);
             filterSignal f QmlFilter.animateInChanged])
      [] (m_currentFilter c)
  ∧ since c (onFadeOutChanged c)
    = from_option
        (λ f, [filterSignal f QmlFilter.changed;
               filterChanged (m_mltService c);
               filterSignal f QmlFilter.animateOutChanged])
        [] (m_currentFilter c).
Proof.
  unfold since, onFadeInChanged, onFadeOutChanged.
  destruct (m_currentFilter c) as [f|]; simpl.
  - rewrite <- !app_assoc. simpl. by rewrite !drop_app_length.
  - by rewrite !drop_all.
Qed.


(** ** The further properties at example states *)

(** X3 at the deprecated hue filter, the first descriptor of three
    directories. *)
Lemma loader_labels_deprecated_witness :
  ∃ obj',
    metaObjects (loadFilterMetadata engine_with_versions three_dirs (init ∅))
      !! (0 + 0)%nat = Some obj'
    ∧ QmlMetadata.name obj' = "Hue (DEPRECATED)"
    ∧ QmlMetadata.objectName obj' = "hue"
    ∧ QmlMetadata.mlt_service obj' = "avfilter.hue"
    ∧ QmlMetadata.type obj' = QmlMetadata.Filter
    ∧ QmlMetadata.isDeprecated obj' = true.
Proof.
  apply (loader_labels_deprecated engine_with_versions three_dirs (init ∅)
           0 "hue" hue).
  reflexivity.
Defined.


(** X5 at the hue filter, whose engine version is ["lavfi7.110"]. *)
Lemma loader_records_version_witness :
  ∃ obj',
    metaObjects (loadFilterMetadata engine_with_versions three_dirs (init ∅))
      !! (0 + 0)%nat = Some obj'
    ∧ if filterAvailable engine_with_versions hue "7.110"
         && negb (String.eqb "7.110" "")
         && bool_decide (is_Some (QmlMetadata.keyframes hue))
      then QmlMetadata.version obj' = Some "7.110"
           ∧ QmlMetadata.keyframes obj'
             = Some (QmlMetadata.mkKeyframes (Some "7.110"))
      else QmlMetadata.version obj' = None
           ∧ QmlMetadata.keyframes obj'
             = Some (QmlMetadata.mkKeyframes None).
Proof.
  apply (loader_records_version engine_with_versions three_dirs (init ∅)
           0 "hue" hue).
  reflexivity.
Defined.

(** X6 at a load into the fresh controller. *)
Lemma loadFilterMetadata_keeps_wf_witness :
  metadata_wf (loadFilterMetadata engine_with_versions three_dirs (init ∅)).
Proof.
  apply (loadFilterMetadata_keeps_wf engine_with_versions three_dirs (init ∅)).
  split; simpl; constructor.
Defined.

(** X7 at a service without [shotcut:filter] whose [mlt_service] is the
    time-remap link: the second row, address [1]. *)
Lemma metadataForService_found_witness :
  let c := loadFilterMetadata engine_with_versions three_dirs (init ∅) in
  ∃ i obj,
    m_metadataModel c !! i = Some 1%nat
    ∧ metaObjects c !! 1%nat = Some obj
    ∧ objectName_or_service obj = "timeRemap"
    ∧ ∀ j m o, (j < i)%nat → m_metadataModel c !! j = Some m →
               metaObjects c !! m = Some o →
               objectName_or_service o ≠ "timeRemap".
Proof.
  apply (metadataForService_found "shotcut:filter" objectName_or_service
           legacy_timeremap
           (loadFilterMetadata engine_with_versions three_dirs (init ∅))
           1%nat).
  vm_compute. reflexivity.
Defined.

(** X8 at the same controller and service. *)
Lemma metadataForService_null_witness :
  let c := loadFilterMetadata engine_with_versions three_dirs (init ∅) in
  ∃ r, metadataForService "shotcut:filter" objectName_or_service
         legacy_timeremap c = Some r
       ∧ (r = None
          ↔ ∀ m o, m ∈ m_metadataModel c → metaObjects c !! m = Some o →
                   objectName_or_service o ≠ "timeRemap").
Proof.
  apply (metadataForService_null "shotcut:filter" objectName_or_service
           legacy_timeremap
           (loadFilterMetadata engine_with_versions three_dirs (init ∅))).
  vm_compute. repeat constructor.
Defined.

(** X9 at the time-remap link and a service that names it. *)
Lemma loaded_descriptor_found_witness :
  let c := loadFilterMetadata engine_with_versions three_dirs (init ∅) in
  ∃ meta obj',
    metadataForService "shotcut:filter" objectName_or_service
      legacy_timeremap c = Some (Some meta)
    ∧ meta ∈ m_metadataModel c
    ∧ metaObjects c !! meta = Some obj'
    ∧ objectName_or_service obj' = "timeRemap".
Proof.
  apply (loaded_descriptor_found engine_with_versions three_dirs (init ∅)
           "shotcut:filter" objectName_or_service legacy_timeremap
           1 "time" timeRemap).
  - intros m m' Hname Hservice. unfold objectName_or_service.
    rewrite Hname, Hservice. reflexivity.
  - split; simpl; constructor.
  - reflexivity.
  - vm_compute. reflexivity.
  - reflexivity.
Defined.


Lemma reachable_adapter_bound_witness :
  let c :=
    setCurrentFilter 1 false
      (setCurrentFilter 0 false (set_attachedModel two_rows (init ∅))) in
  (∀ a, m_currentFilter c = Some a →
        ∃ f, filterObjects c !! a = Some f
             ∧ ∀ s, m_mltService c = Some s → QmlFilter.service f = s)
  ∧ (m_currentFilterIndex c < 0 → m_currentFilter c = None).
Proof.
  apply (reachable_adapter_bound
           [Env_attachedModel two_rows;
            Call_setCurrentFilter 0 false;
            Call_setCurrentFilter 1 false] ∅).
  reflexivity.
Defined.

Lemma aboutToReset_releases_witness :
  let c :=
    setCurrentFilter 1 false
      (setCurrentFilter 0 false (set_attachedModel two_rows (init ∅))) in
  m_currentFilterIndex (handleAttachedModelAboutToReset c)
  = QmlFilter.NoCurrentFilter
  ∧ m_currentFilter (handleAttachedModelAboutToReset c) = None
  ∧ filterObjects (handleAttachedModelAboutToReset c) = ∅.
Proof.
  apply (aboutToReset_releases
           [Env_attachedModel two_rows;
            Call_setCurrentFilter 0 false;
            Call_setCurrentFilter 1 false] ∅).
  reflexivity.
Defined.

(** X13 at a request for row [5] of two rows while the first is
    selected. *)
Lemma setCurrentFilter_deselects_witness :
  trace (setCurrentFilter 5 false first_selected)
  = trace first_selected
      ++ [currentFilterChanged None None 5; deleteQmlFilter 0]
  ∧ m_currentFilter (setCurrentFilter 5 false first_selected) = None
  ∧ filterObjects (setCurrentFilter 5 false first_selected)
    = delete 0%nat (filterObjects first_selected)
  ∧ m_currentFilterIndex (setCurrentFilter 5 false first_selected) = 5
  ∧ m_mltService (setCurrentFilter 5 false first_selected)
    = Some (Mlt.mkService 10).
Proof.
  apply (setCurrentFilter_deselects first_selected 5 false).
  - vm_compute. discriminate.
  - reflexivity.
Defined.

(** X14 at a change at row [0] while row [0] is the current one. *)
Lemma rows_changed_rebuilds_witness :
  (m_currentFilter (handleAttachedRowsRemoved 0 first_selected)
   = Some 1%nat
   ∧ filterObjects (handleAttachedRowsRemoved 0 first_selected) !! 1%nat
     = Some (QmlFilter.mk (Mlt.mkService 10) 0 false))
  ∧ (m_currentFilter (handleAttachedRowsInserted 0 first_selected)
     = Some 1%nat
     ∧ filterObjects (handleAttachedRowsInserted 0 first_selected) !! 1%nat
       = Some (QmlFilter.mk (Mlt.mkService 10) 0 true)).
Proof.
  apply (rows_changed_rebuilds 0 first_selected 0%nat (Mlt.mkService 10)).
  - reflexivity.
  - reflexivity.
Defined.

(** X15 at an insertion at row [1] of two rows. *)
Lemma rows_changed_selects_first_witness :
  m_currentFilterIndex (handleAttachedRowsInserted 1 two_attached) = 1
  ∧ m_currentFilterIndex (handleAttachedRowsRemoved 1 two_attached) = 1.
Proof.
  apply (rows_changed_selects_first 1 two_attached).
  unfold AttachedFiltersModel.rowCount. simpl. lia.
Defined.

(** X16 at the first filter selected and hidden, and the second
    requested. *)
Lemma setCurrentFilter_unhides_witness :
  let c' := setCurrentFilter 1 false first_selected_hidden in
  get_int (Mlt.mkService 10) "_hide" c' = 0
  ∧ (refreshConsumer ∈ since first_selected_hidden c'
     ↔ get_int (Mlt.mkService 10) "_hide" first_selected_hidden ≠ 0)
  ∧ ∀ svc name,
      (Mlt.get_service svc, name) ≠ (10%nat, "_hide") →
      get_int svc name c' = get_int svc name first_selected_hidden.
Proof.
  apply (setCurrentFilter_unhides first_selected_hidden 1 false
           (Mlt.mkService 10)).
  - vm_compute. discriminate.
  - reflexivity.
Defined.

(** X18 at a second blur filter while the blur filter is current. *)
Lemma duplicate_of_current_row_witness :
  handleAttachDuplicateFailed 0 first_selected
  = Some (emit (statusChanged "Only one Blur filter is allowed.")
            first_selected).
Proof.
  apply (duplicate_of_current_row first_selected 0%nat blur).
  - reflexivity.
  - reflexivity.
Defined.

(** X19 at the removal of the only attached filter, which was current. *)
Lemma removeCurrent_after_last_removed_witness :
  let c' :=
    handleAttachedRowsRemoved 0 (set_attachedModel [] first_selected) in
  m_currentFilterIndex c' = 0
  ∧ m_attachedModel c' = []
  ∧ removeCurrent c' = emit (attachedRemove 0) c'.
Proof.
  apply (removeCurrent_after_last_removed 0
           (set_attachedModel [] first_selected)).
  reflexivity.
Defined.

(** X20 at a change of five frames from the service of the current
    adapter. *)
Lemma service_change_forwarded_witness :
  onServiceInChanged 5 (Some (Mlt.mkService 10)) first_selected
  = emit (filterSignal 0 (QmlFilter.inChanged 5)) first_selected
  ∧ onServiceOutChanged 5 (Some (Mlt.mkService 10)) first_selected
    = emit (filterSignal 0 (QmlFilter.outChanged 5)) first_selected.
Proof.
  apply (service_change_forwarded 5 (Some (Mlt.mkService 10)) first_selected
           0%nat (QmlFilter.mk (Mlt.mkService 10) 0 false)).
  - discriminate.
  - reflexivity.
  - reflexivity.
  - intros s Hs. injection Hs as <-. reflexivity.
Defined.

(** X21 at a fade-in change while the first filter is selected. *)
Lemma relay_slots_only_signal_witness :
  ∃ new,
    onFadeInChanged first_selected
    = mkFilterController (m_mltService first_selected)
        (m_metadataModel first_selected) (m_attachedModel first_selected)
        (m_currentFilterIndex first_selected)
        (m_currentFilter first_selected) (metaObjects first_selected)
        (filterObjects first_selected) (nextFilter first_selected)
        (serviceProps first_selected) (trace first_selected ++ new)
        (indexWrites first_selected)
    ∧ Forall relay_event new.
Proof.
  apply (relay_slots_only_signal Call_onFadeInChanged first_selected
           (onFadeInChanged first_selected)).
  - reflexivity.
  - reflexivity.
Defined.
